(** * resourceTimeCalculator.py: a shallow embedding and its properties

    The script lists the events of a CloudFormation stack
    ([get_all_events]), reduces them to one timing record per resource
    ([find_resources_with_longest_time]) and prints a report
    ([analyze_events]); [calculate_times] chains the three.  The command
    line of [main] is read by [argparse] and is not modelled.

    Modelling decisions.
    - Python values that reach the timing records are [pyval]: [None], a
      [datetime], or the [float] returned by [timedelta.total_seconds()].
      A datetime is the number of whole seconds since [datetime.min]
      (0001-01-01 00:00:00); on whole seconds [total_seconds()] is the exact
      integer difference, which is what [PyFloat] carries.
    - A Python exception is a value of [exn]; code that can raise returns a
      [result].
    - A [dict] is an association list in insertion order, as CPython keeps
      it: assigning to an existing key keeps the key's position, assigning
      to a new key appends.
    - An event is a dict read only through [event.get(key)]; a field is
      [None] when the key is absent, which is what [.get] then returns. *)

From Stdlib Require Import ZArith List String Bool Lia Sorted Permutation.
Import ListNotations.
Open Scope string_scope.
Open Scope list_scope.
Open Scope Z_scope.

(** ** Python values, exceptions, results *)

Inductive pyval : Type :=
| PyNone
| PyDatetime (t : Z)
| PyFloat (s : Z).

Inductive exn : Type :=
| ValueError (msg : string)
| TypeError
| KeyError
| AttributeError
| ClientError (code : string).

Inductive result (A : Type) : Type :=
| Ok (a : A)
| Raise (e : exn).
Arguments Ok {A} a.
Arguments Raise {A} e.

Definition bind {A B : Type} (r : result A) (k : A -> result B) : result B :=
  match r with
  | Ok a => k a
  | Raise e => Raise e
  end.

Notation "x <- r ;; k" := (bind r (fun x => k))
  (at level 61, r at next level, right associativity).
Notation "' p <- r ;; k" := (bind r (fun x => let p := x in k))
  (at level 61, p pattern, r at next level, right associativity).

(** [a < b] on Python values: defined between two datetimes and between
    two floats, a [TypeError] as soon as one side is [None]. *)
Definition py_lt (a b : pyval) : result bool :=
  match a, b with
  | PyDatetime x, PyDatetime y => Ok (x <? y)
  | PyFloat x, PyFloat y => Ok (x <? y)
  | _, _ => Raise TypeError
  end.

(** ** Dictionaries in insertion order *)

Section Dict.
Context {K V : Type}.
Variable eqb : K -> K -> bool.

Fixpoint dict_get (k : K) (d : list (K * V)) : option V :=
  match d with
  | [] => None
  | (k', v) :: d' => if eqb k k' then Some v else dict_get k d'
  end.

(** [k in d] *)
Definition dict_mem (k : K) (d : list (K * V)) : bool :=
  match dict_get k d with
  | Some _ => true
  | None => false
  end.

(** [d.get(k, default)] *)
Definition dict_get_default (k : K) (default : V) (d : list (K * V)) : V :=
  match dict_get k d with
  | Some v => v
  | None => default
  end.

(** [d[k] = v] *)
Fixpoint dict_set (k : K) (v : V) (d : list (K * V)) : list (K * V) :=
  match d with
  | [] => [(k, v)]
  | (k', v') :: d' =>
      if eqb k k' then (k', v) :: d' else (k', v') :: dict_set k v d'
  end.
End Dict.

(** ** Events and timing records *)

Definition CREATE_IN_PROGRESS := "CREATE_IN_PROGRESS".
Definition CREATE_COMPLETE := "CREATE_COMPLETE".
Definition DELETE_IN_PROGRESS := "DELETE_IN_PROGRESS".
Definition DELETE_COMPLETE := "DELETE_COMPLETE".

Record Event : Type := mkEvent {
  LogicalResourceId : option string;
  ResourceStatus : option string;
  Timestamp : option Z
}.

(** [event.get("Timestamp")] *)
Definition event_timestamp (event : Event) : pyval :=
  match Timestamp event with
  | Some t => PyDatetime t
  | None => PyNone
  end.

(** [event.get("ResourceStatus") == status] *)
Definition status_is (event : Event) (status : string) : bool :=
  match ResourceStatus event with
  | Some s => String.eqb s status
  | None => false
  end.

(** Keys of [resource_times] are whatever [event.get("LogicalResourceId")]
    returns: a string, or [None]. *)
Definition resource_id_eqb (a b : option string) : bool :=
  match a, b with
  | Some x, Some y => String.eqb x y
  | None, None => true
  | _, _ => false
  end.

(** The inner dict of one resource: keys ["start_time"], ["end_time"] and,
    after the second loop, ["duration"]. *)
Definition times : Type := list (string * pyval).
Definition resource_times_t : Type := list (option string * times).

Definition times_get : string -> times -> option pyval := dict_get String.eqb.
Definition times_set : string -> pyval -> times -> times := dict_set String.eqb.
Definition rt_get : option string -> resource_times_t -> option times :=
  dict_get resource_id_eqb.
Definition rt_mem : option string -> resource_times_t -> bool :=
  dict_mem resource_id_eqb.
Definition rt_set : option string -> times -> resource_times_t -> resource_times_t :=
  dict_set resource_id_eqb.
Definition rt_get_default : option string -> times -> resource_times_t -> times :=
  dict_get_default resource_id_eqb.

(** [d.get(key)]: [None] when the key is absent. *)
Definition times_get_none (key : string) (t : times) : pyval :=
  dict_get_default String.eqb key PyNone t.

(** [resource_times[resource_id][key] = value]: a [KeyError] when
    [resource_id] is absent. *)
Definition rt_setitem_inner (resource_id : option string) (key : string)
    (value : pyval) (resource_times : resource_times_t) : result resource_times_t :=
  match rt_get resource_id resource_times with
  | Some t => Ok (rt_set resource_id (times_set key value t) resource_times)
  | None => Raise KeyError
  end.

(** ** calculate_time_difference *)

Definition datetime_min : pyval := PyDatetime 0.

(** [(end_time - start_time).total_seconds()]: the subtraction is defined
    between two datetimes; between two floats it yields a float, which has no
    [total_seconds]; anything involving [None] is a [TypeError]. *)
Definition calculate_time_difference (start_time end_time : pyval) : result pyval :=
  match end_time, start_time with
  | PyDatetime e, PyDatetime s => Ok (PyFloat (e - s))
  | PyFloat _, PyFloat _ => Raise AttributeError
  | _, _ => Raise TypeError
  end.

(** ** find_resources_with_longest_time *)

Definition invalid_operation_msg : string :=
  "Invalid operation. Use 'create' or 'delete'.".

(** Lines 77-84: the statuses of the selected operation. *)
Definition select_statuses (operation : string) : result (string * string) :=
  if String.eqb operation "create" then Ok (CREATE_IN_PROGRESS, CREATE_COMPLETE)
  else if String.eqb operation "delete" then Ok (DELETE_IN_PROGRESS, DELETE_COMPLETE)
  else Raise (ValueError invalid_operation_msg).

(** Lines 75-102: the body of the loop over the events. *)
Definition find_step (operation : string) (resource_times : resource_times_t)
    (event : Event) : result resource_times_t :=
  let resource_id := LogicalResourceId event in
  '(status_in_progress, status_complete) <- select_statuses operation ;;
  if status_is event status_in_progress then
    (* [resource_id in resource_times or Timestamp < ....get("start_time")],
       the right side evaluated only when the left is false *)
    cond <- (if rt_mem resource_id resource_times then Ok true
             else py_lt (event_timestamp event)
                    (times_get_none "start_time"
                       (rt_get_default resource_id [] resource_times))) ;;
    if cond then
      rt_setitem_inner resource_id "start_time" (event_timestamp event)
        resource_times
    else if negb (rt_mem resource_id resource_times) then
      Ok (rt_set resource_id
            [("start_time", event_timestamp event); ("end_time", PyNone)]
            resource_times)
    else Ok resource_times
  else if status_is event status_complete then
    if rt_mem resource_id resource_times then
      rt_setitem_inner resource_id "end_time" (event_timestamp event)
        resource_times
    else if negb (rt_mem resource_id resource_times) then
      Ok (rt_set resource_id
            [("start_time", PyNone); ("end_time", event_timestamp event)]
            resource_times)
    else Ok resource_times
  else Ok resource_times.

(** Lines 74-102: the loop, from a given state of [resource_times]. *)
Fixpoint process_events (operation : string) (events : list Event)
    (resource_times : resource_times_t) : result resource_times_t :=
  match events with
  | [] => Ok resource_times
  | event :: rest =>
      resource_times' <- find_step operation resource_times event ;;
      process_events operation rest resource_times'
  end.

(** Lines 104-105: [times["duration"] = calculate_time_difference(
    times.get("start_time", datetime.min), times.get("end_time", datetime.min))]
    for every item, in order. *)
Fixpoint add_durations (items : resource_times_t) : result resource_times_t :=
  match items with
  | [] => Ok []
  | (resource_id, t) :: rest =>
      d <- calculate_time_difference
             (dict_get_default String.eqb "start_time" datetime_min t)
             (dict_get_default String.eqb "end_time" datetime_min t) ;;
      rest' <- add_durations rest ;;
      Ok ((resource_id, times_set "duration" d t) :: rest')
  end.

(** The sort key [x[1]["duration"]]: a [KeyError] when the key is absent.
    The keys are compared with [<] as numbers of seconds.  A stored duration
    is always a float, since it comes from [calculate_time_difference]; a key
    of another kind, which the loop above never stores, is answered with
    [TypeError]. *)
Definition duration_key (x : option string * times) : result Z :=
  match times_get "duration" (snd x) with
  | Some (PyFloat s) => Ok s
  | Some _ => Raise TypeError
  | None => Raise KeyError
  end.

Fixpoint decorate (items : resource_times_t)
    : result (list (Z * (option string * times))) :=
  match items with
  | [] => Ok []
  | x :: rest =>
      k <- duration_key x ;;
      rest' <- decorate rest ;;
      Ok ((k, x) :: rest')
  end.

(** [sorted(..., reverse=True)] is stable: among equal keys the earlier
    item stays first.  [insert_desc x l] puts [x], which precedes every
    element of [l] in the input, in front of the first element whose key is
    not greater. *)
Fixpoint insert_desc {A : Type} (x : Z * A) (l : list (Z * A)) : list (Z * A) :=
  match l with
  | [] => [x]
  | y :: l' => if fst x <? fst y then y :: insert_desc x l' else x :: l
  end.

Fixpoint sort_desc {A : Type} (l : list (Z * A)) : list (Z * A) :=
  match l with
  | [] => []
  | x :: l' => insert_desc x (sort_desc l')
  end.

(** Line 107. *)
Definition sorted_by_duration (items : resource_times_t) : result resource_times_t :=
  keyed <- decorate items ;;
  Ok (map snd (sort_desc keyed)).

Definition find_resources_with_longest_time (events : list Event)
    (operation : string) : result resource_times_t :=
  resource_times <- process_events operation events [] ;;
  resource_times <- add_durations resource_times ;;
  sorted_by_duration resource_times.

(** ** analyze_events *)

(** What [print] writes: a literal line, or the line
    [f"{resource_id}: {times['duration']} seconds"] kept as the two values it
    interpolates. *)
Inductive printed : Type :=
| Line (text : string)
| ResourceLine (resource_id : option string) (duration : pyval).

Fixpoint report_lines (sorted_resources : resource_times_t)
    : list printed * result unit :=
  match sorted_resources with
  | [] => ([], Ok tt)
  | (resource_id, t) :: rest =>
      match times_get "duration" t with
      | Some d =>
          let '(ls, r) := report_lines rest in
          (ResourceLine resource_id d :: ls, r)
      | None => ([], Raise KeyError)
      end
  end.

(** The printed lines and how the call ends.  The analysis runs before the
    first [print] of the report, so an exception it raises leaves nothing
    printed. *)
Definition analyze_events (events : list Event) (operation : string)
    : list printed * result unit :=
  if negb (existsb (String.eqb operation) ["create"; "delete"]) then
    ([Line invalid_operation_msg], Ok tt)
  else
    match find_resources_with_longest_time events operation with
    | Raise e => ([], Raise e)
    | Ok sorted_resources =>
        let '(ls, r) := report_lines sorted_resources in
        (Line (String.append "Resources with longest "
                (String.append operation " times:")) :: ls, r)
    end.

(** ** get_all_events *)

(** One call of [describe_stack_events]: the stack name and, when given, the
    [NextToken] argument. *)
Record Request : Type := mkRequest {
  StackName : string;
  NextTokenArg : option string
}.

(** A response is read through [response.get('StackEvents', [])] and
    [response.get('NextToken')]; a field is [None] when the key is absent. *)
Record Response : Type := mkResponse {
  StackEvents : option (list Event);
  NextToken : option string
}.

(** The CloudFormation client of one region: an answer, or an exception,
    for every request. *)
Definition Client : Type := Request -> result Response.

(** Truth value of [next_token]: [None] and the empty string are false. *)
Definition truthy (next_token : option string) : bool :=
  match next_token with
  | Some s => negb (String.eqb s "")
  | None => false
  end.

(** Lines 27-42, [while True], with the list of the requests issued so far.
    [None]: the loop did not end within [fuel] iterations. *)
Fixpoint get_all_events_loop (fuel : nat) (client : Client) (stack_name : string)
    (next_token : option string) (all_events : list Event)
    (requests : list Request) : option (result (list Event) * list Request) :=
  match fuel with
  | O => None
  | S fuel' =>
      let request :=
        if truthy next_token then mkRequest stack_name next_token
        else mkRequest stack_name None in
      match client request with
      | Raise e => Some (Raise e, requests ++ [request])
      | Ok response =>
          let events :=
            match StackEvents response with
            | Some l => l
            | None => []
            end in
          let all_events := all_events ++ events in
          let next_token := NextToken response in
          if negb (truthy next_token) then
            Some (Ok all_events, requests ++ [request])
          else
            get_all_events_loop fuel' client stack_name next_token all_events
              (requests ++ [request])
      end
  end.

Definition get_all_events (boto3_client : string -> Client) (fuel : nat)
    (stack_name region : string) : option (result (list Event) * list Request) :=
  get_all_events_loop fuel (boto3_client region) stack_name None [] [].

(** ** calculate_times *)

(** Lines 139-140: fetch all the events, then analyse them.  The printed
    lines, how the call ends, and the requests issued; [None] when the
    pagination loop did not end within [fuel] iterations.  An exception
    raised while fetching leaves [analyze_events] uncalled. *)
Definition calculate_times (boto3_client : string -> Client) (fuel : nat)
    (stack_name region operation : string)
    : option ((list printed * result unit) * list Request) :=
  match get_all_events boto3_client fuel stack_name region with
  | None => None
  | Some (Raise e, requests) => Some (([], Raise e), requests)
  | Some (Ok events, requests) => Some (analyze_events events operation, requests)
  end.

(** ** Notions used in the statements *)

(** The call ends with the [ValueError] of line 84. *)
Definition fails_with_invalid_operation {A : Type} (r : result A) : Prop :=
  r = Raise (ValueError invalid_operation_msg).

(** The [end_time] stored for a resource, if it has a record. *)
Definition recorded_end_time (resource_id : option string)
    (resource_times : resource_times_t) : option pyval :=
  match rt_get resource_id resource_times with
  | Some t => times_get "end_time" t
  | None => None
  end.

(** A complete event of the resource is among the events already seen. *)
Definition complete_seen (sc : string) (resource_id : option string)
    (seen : list Event) : bool :=
  existsb (fun e => status_is e sc
                    && resource_id_eqb (LogicalResourceId e) resource_id) seen.

(** Every in-progress event comes after a complete event of the same
    resource ([seen]: the events before [events], latest first). *)
Fixpoint starts_have_records (sip sc : string) (seen events : list Event) : bool :=
  match events with
  | [] => true
  | e :: rest =>
      (if status_is e sip then complete_seen sc (LogicalResourceId e) seen else true)
      && starts_have_records sip sc (e :: seen) rest
  end.

(** Descending order of the sort keys. *)
Definition key_ge {A : Type} (a b : Z * A) : Prop := fst a >= fst b.

(** The duration of one returned pair, in seconds. *)
Definition duration_of (x : option string * times) : option Z :=
  match times_get "duration" (snd x) with
  | Some (PyFloat s) => Some s
  | _ => None
  end.

Definition duration_ge (x y : option string * times) : Prop :=
  exists dx dy, duration_of x = Some dx /\ duration_of y = Some dy /\ dx >= dy.

(** A source with three pages, used to instantiate the pagination theorem. *)
Definition three_page_client (region : string) : Client :=
  fun request =>
    match NextTokenArg request with
    | None =>
        Ok (mkResponse
              (Some [mkEvent (Some "R1") (Some "CREATE_COMPLETE") (Some 5)])
              (Some "A"))
    | Some token =>
        if String.eqb token "A" then
          Ok (mkResponse
                (Some [mkEvent (Some "R1") (Some "CREATE_IN_PROGRESS") (Some 2)])
                (Some "B"))
        else if String.eqb token "B" then
          Ok (mkResponse
                (Some [mkEvent (Some "R1") (Some "CREATE_IN_PROGRESS") (Some 1)])
                None)
        else Raise (ClientError "ValidationError")
    end.

(** [response.get('StackEvents', [])] *)
Definition response_events (response : Response) : list Event :=
  match StackEvents response with
  | Some l => l
  | None => []
  end.

(** A source that answers the request carrying [next_token] with the first
    page and its token, the request carrying that token with the second page,
    and so on through [pages]; the request carrying the last token is
    answered with [final]. *)
Fixpoint answers (client : Client) (stack_name : string)
    (next_token : option string) (pages : list (list Event * string))
    (final : result Response) : Prop :=
  match pages with
  | [] => client (mkRequest stack_name next_token) = final
  | (page, token) :: rest =>
      token <> "" /\
      client (mkRequest stack_name next_token)
        = Ok (mkResponse (Some page) (Some token)) /\
      answers client stack_name (Some token) rest final
  end.

(** The requests that follow the tokens of [pages]. *)
Definition token_requests (stack_name : string)
    (pages : list (list Event * string)) : list Request :=
  map (fun p => mkRequest stack_name (Some (snd p))) pages.

(** The timestamp of the last event of the resource with the given status;
    [None] when there is no such event. *)
Definition last_timestamp (status : string) (resource_id : option string)
    (events : list Event) : pyval :=
  fold_left
    (fun acc e =>
       if status_is e status && resource_id_eqb (LogicalResourceId e) resource_id
       then event_timestamp e else acc)
    events PyNone.

(** The record of a resource as the events determine it. *)
Definition record_of (sip sc : string) (events : list Event)
    (resource_id : option string) : option string * times :=
  (resource_id,
   [("start_time", last_timestamp sip resource_id events);
    ("end_time", last_timestamp sc resource_id events)]).

Definition resource_id_eq_dec (a b : option string) : {a = b} + {a <> b}.
Proof. decide equality. apply string_dec. Defined.

(** The resources that have a complete event, each once, in the order of
    their first complete event. *)
Definition encounter_order (sc : string) (events : list Event)
    : list (option string) :=
  rev (nodup resource_id_eq_dec
         (rev (map LogicalResourceId (filter (fun e => status_is e sc) events)))).

Definition is_datetime (v : pyval) : bool :=
  match v with
  | PyDatetime _ => true
  | _ => false
  end.

(** Every resource with a complete event has a last in-progress event and
    a last complete event that carry a timestamp. *)
Definition all_timed (sip sc : string) (events : list Event) : bool :=
  forallb
    (fun k => is_datetime (last_timestamp sip k events)
              && is_datetime (last_timestamp sc k events))
    (encounter_order sc events).

(** An event with one of the two statuses of the operation. *)
Definition relevant (sip sc : string) (e : Event) : bool :=
  status_is e sip || status_is e sc.

(** The record of a resource in the result: the two times and their
    difference. *)
Definition timed_record (resource_id : option string) (s e : Z)
    : option string * times :=
  (resource_id,
   [("start_time", PyDatetime s); ("end_time", PyDatetime e);
    ("duration", PyFloat (e - s))]).

(** The seconds a datetime stands for. *)
Definition seconds (v : pyval) : Z :=
  match v with
  | PyDatetime t => t
  | PyFloat s => s
  | PyNone => 0
  end.

(** The returned record of a resource as the events determine it: from its
    last in-progress event to its last complete event. *)
Definition timed_of (sip sc : string) (events : list Event)
    (resource_id : option string) : option string * times :=
  timed_record resource_id
    (seconds (last_timestamp sip resource_id events))
    (seconds (last_timestamp sc resource_id events)).

Definition duration_seconds (x : option string * times) : Z :=
  match duration_of x with
  | Some s => s
  | None => 0
  end.

(** The records of the resources in encounter order, sorted. *)
Definition expected_result (sip sc : string) (events : list Event)
    : resource_times_t :=
  map snd
    (sort_desc
       (map (fun k => (duration_seconds (timed_of sip sc events k),
                       timed_of sip sc events k))
          (encounter_order sc events))).

(** Each record holds the timestamps of the last in-progress and the last
    complete event of its resource; a resource without a record has had no
    in-progress event. *)
Definition loop_inv (sip sc : string) (events : list Event)
    (rt : resource_times_t) : Prop :=
  forall resource_id,
    match rt_get resource_id rt with
    | Some t => t = snd (record_of sip sc events resource_id)
    | None => last_timestamp sip resource_id events = PyNone
    end.

(** The report line of one returned pair. *)
Definition report_line (x : option string * times) : printed :=
  ResourceLine (fst x) (times_get_none "duration" (snd x)).

(** Sources used to instantiate the pagination properties: one whose
    second answer has no ['StackEvents'] and an empty token, one that is
    throttled on the second request, one that always hands out a token. *)
Definition two_page_client : Client :=
  fun request =>
    match NextTokenArg request with
    | None =>
        Ok (mkResponse
              (Some [mkEvent (Some "R1") (Some "CREATE_COMPLETE") (Some 5)])
              (Some "t1"))
    | Some _ => Ok (mkResponse None (Some ""))
    end.

Definition throttled_client : Client :=
  fun request =>
    match NextTokenArg request with
    | None =>
        Ok (mkResponse
              (Some [mkEvent (Some "R1") (Some "CREATE_COMPLETE") (Some 5)])
              (Some "t1"))
    | Some _ => Raise (ClientError "Throttling")
    end.

Definition endless_client : Client :=
  fun _ => Ok (mkResponse (Some []) (Some "A")).

(** * Properties *)

(** ** Dictionaries *)

Section DictFacts.
Context {K V : Type}.
Variable eqb : K -> K -> bool.
Hypothesis eqb_eq : forall a b, eqb a b = true <-> a = b.

Lemma eqb_refl_dict (k : K) : eqb k k = true.
Proof. now apply eqb_eq. Qed.

Lemma eqb_neq_dict (a b : K) : a <> b -> eqb a b = false.
Proof.
  intros Hab. destruct (eqb a b) eqn:E; [|reflexivity].
  apply eqb_eq in E. contradiction.
Qed.

Lemma dict_get_set_same (k : K) (v : V) (d : list (K * V)) :
  dict_get eqb k (dict_set eqb k v d) = Some v.
Proof.
  induction d as [|[k' v'] d IH]; simpl.
  - now rewrite eqb_refl_dict.
  - destruct (eqb k k') eqn:E; simpl; rewrite E; auto.
Qed.

Lemma dict_get_set_other (k k0 : K) (v : V) (d : list (K * V)) :
  k0 <> k -> dict_get eqb k0 (dict_set eqb k v d) = dict_get eqb k0 d.
Proof.
  intros Hne. induction d as [|[k' v'] d IH]; simpl.
  - now rewrite (eqb_neq_dict _ _ Hne).
  - destruct (eqb k k') eqn:E; simpl.
    + apply eqb_eq in E. subst k'. now rewrite (eqb_neq_dict _ _ Hne).
    + now rewrite IH.
Qed.

Lemma dict_mem_get (k : K) (d : list (K * V)) :
  dict_mem eqb k d = false <-> dict_get eqb k d = None.
Proof. unfold dict_mem. destruct (dict_get eqb k d); split; congruence. Qed.
End DictFacts.

Lemma resource_id_eqb_eq (a b : option string) :
  resource_id_eqb a b = true <-> a = b.
Proof.
  destruct a as [x|], b as [y|]; simpl; try (split; congruence).
  rewrite String.eqb_eq. split; congruence.
Qed.

(** ** The loop over the events *)

Lemma process_events_app (operation : string) (pre post : list Event)
    (rt : resource_times_t) :
  process_events operation (pre ++ post) rt =
  (rt' <- process_events operation pre rt ;; process_events operation post rt').
Proof.
  revert rt. induction pre as [|e pre IH]; intros rt; simpl; [reflexivity|].
  destruct (find_step operation rt e); simpl; auto.
Qed.

(** The two statuses of an operation are different strings. *)
Lemma select_statuses_distinct (operation sip sc : string) :
  select_statuses operation = Ok (sip, sc) -> String.eqb sc sip = false.
Proof.
  unfold select_statuses.
  destruct (String.eqb operation "create");
    [|destruct (String.eqb operation "delete")]; intros H; inversion H; reflexivity.
Qed.

(** An in-progress event for a resource without a record: the comparison
    against the [None] looked up from the empty default dict raises. *)
Lemma find_step_in_progress_absent (operation sip sc : string)
    (rt : resource_times_t) (event : Event) :
  select_statuses operation = Ok (sip, sc) ->
  status_is event sip = true ->
  rt_mem (LogicalResourceId event) rt = false ->
  find_step operation rt event = Raise TypeError.
Proof.
  intros Hsel Hst Hmem. unfold find_step. rewrite Hsel. simpl.
  rewrite Hst, Hmem.
  apply dict_mem_get in Hmem.
  unfold rt_get_default, dict_get_default. rewrite Hmem.
  destruct (event_timestamp event); reflexivity.
Qed.

(** An in-progress event for a resource with a record overwrites
    [start_time], whatever the stored value. *)
Lemma find_step_in_progress_present (operation sip sc : string)
    (rt : resource_times_t) (event : Event) (t : times) :
  select_statuses operation = Ok (sip, sc) ->
  status_is event sip = true ->
  rt_get (LogicalResourceId event) rt = Some t ->
  find_step operation rt event =
  Ok (rt_set (LogicalResourceId event)
        (times_set "start_time" (event_timestamp event) t) rt).
Proof.
  intros Hsel Hst Hget. unfold find_step. rewrite Hsel. simpl.
  rewrite Hst. unfold rt_mem, dict_mem. unfold rt_get in Hget. rewrite Hget. simpl.
  unfold rt_setitem_inner, rt_get. now rewrite Hget.
Qed.

(** ** Operation validation *)

Lemma select_statuses_invalid (operation : string) :
  operation <> "create" -> operation <> "delete" ->
  select_statuses operation = Raise (ValueError invalid_operation_msg).
Proof.
  intros Hc Hd. unfold select_statuses.
  apply String.eqb_neq in Hc. apply String.eqb_neq in Hd.
  now rewrite Hc, Hd.
Qed.

(** C10: on the empty event sequence [find_resources_with_longest_time]
    returns the empty list for every operation string, valid or not: the
    operation is only looked at inside the loop over the events. *)
Theorem C10_empty_events_any_operation (operation : string) :
  find_resources_with_longest_time [] operation = Ok [].
Proof. reflexivity. Qed.

(** C2, as stated, fails on the empty sequence: with the operation
    ["update"] the reduction returns the empty list and the report function
    ends normally; neither raises. *)
Lemma C2_counterexample_empty_sequence :
  find_resources_with_longest_time [] "update" = Ok [] /\
  snd (analyze_events [] "update") = Ok tt /\
  ~ (forall (events : list Event) (operation : string),
        operation <> "create" -> operation <> "delete" ->
        fails_with_invalid_operation
          (find_resources_with_longest_time events operation)).
Proof.
  split; [reflexivity|]. split; [reflexivity|].
  intros H. specialize (H [] "update").
  unfold fails_with_invalid_operation in H. simpl in H.
  assert (Hr : @Ok resource_times_t [] = Raise (ValueError invalid_operation_msg))
    by (apply H; discriminate).
  discriminate Hr.
Qed.

(** C2, amended: with an operation other than ["create"] and ["delete"],
    [analyze_events] prints the invalid-operation message, produces no
    report and returns normally, for every event sequence; and
    [find_resources_with_longest_time] raises [ValueError] with that message
    for every non-empty event sequence. *)
Theorem C2_invalid_operation_rejected (events : list Event) (operation : string) :
  operation <> "create" -> operation <> "delete" ->
  analyze_events events operation = ([Line invalid_operation_msg], Ok tt) /\
  (events <> [] ->
   fails_with_invalid_operation
     (find_resources_with_longest_time events operation)).
Proof.
  intros Hc Hd. split.
  - unfold analyze_events. simpl.
    apply String.eqb_neq in Hc. apply String.eqb_neq in Hd.
    now rewrite Hc, Hd.
  - intros Hne. destruct events as [|e rest]; [contradiction|].
    unfold fails_with_invalid_operation, find_resources_with_longest_time.
    simpl. unfold find_step.
    now rewrite (select_statuses_invalid _ Hc Hd).
Qed.

Lemma C2_invalid_operation_rejected_witness :
  analyze_events [mkEvent (Some "R1") (Some "CREATE_COMPLETE") (Some 7)] "update"
    = ([Line invalid_operation_msg], Ok tt) /\
  fails_with_invalid_operation
    (find_resources_with_longest_time
       [mkEvent (Some "R1") (Some "CREATE_COMPLETE") (Some 7)] "update").
Proof.
  destruct (C2_invalid_operation_rejected
              [mkEvent (Some "R1") (Some "CREATE_COMPLETE") (Some 7)] "update")
    as [Ha Hf]; [discriminate | discriminate |].
  split; [exact Ha | apply Hf; discriminate].
Defined.

(** ** In-progress events *)

(** C9: an in-progress event of the selected operation that arrives when
    its resource has no record makes the loop body, and so the whole call,
    raise [TypeError]; no record is created. *)
Theorem C9_in_progress_without_record_raises_TypeError
    (operation sip sc : string) (pre post : list Event) (event : Event)
    (rt : resource_times_t) :
  select_statuses operation = Ok (sip, sc) ->
  process_events operation pre [] = Ok rt ->
  ResourceStatus event = Some sip ->
  rt_mem (LogicalResourceId event) rt = false ->
  find_step operation rt event = Raise TypeError /\
  find_resources_with_longest_time (pre ++ event :: post) operation
    = Raise TypeError.
Proof.
  intros Hsel Hpre Hst Hmem.
  assert (Hstep : find_step operation rt event = Raise TypeError).
  { apply (find_step_in_progress_absent operation sip sc); auto.
    unfold status_is. rewrite Hst. apply String.eqb_refl. }
  split; [exact Hstep|].
  unfold find_resources_with_longest_time.
  rewrite process_events_app, Hpre. simpl. now rewrite Hstep.
Qed.

Lemma C9_in_progress_without_record_raises_TypeError_witness :
  find_step "create"
    [(Some "R2", [("start_time", PyNone); ("end_time", PyDatetime 9)])]
    (mkEvent (Some "R1") (Some "CREATE_IN_PROGRESS") (Some 3))
    = Raise TypeError /\
  find_resources_with_longest_time
    ([mkEvent (Some "R2") (Some "CREATE_COMPLETE") (Some 9)]
       ++ mkEvent (Some "R1") (Some "CREATE_IN_PROGRESS") (Some 3)
       :: [mkEvent (Some "R1") (Some "CREATE_COMPLETE") (Some 8)])
    "create" = Raise TypeError.
Proof.
  apply (C9_in_progress_without_record_raises_TypeError
           "create" "CREATE_IN_PROGRESS" "CREATE_COMPLETE");
    reflexivity.
Defined.

(** C1 does not hold of the code.  With the complete event first, the later
    of two in-progress events is the one recorded when it arrives last
    ([start_time] is overwritten without comparison); with an in-progress
    event first, the call raises [TypeError]. *)
Theorem C1_start_time_is_last_written (R : string) (T1 T2 T3 : Z) :
  find_resources_with_longest_time
    [mkEvent (Some R) (Some CREATE_COMPLETE) (Some T2);
     mkEvent (Some R) (Some CREATE_IN_PROGRESS) (Some T1);
     mkEvent (Some R) (Some CREATE_IN_PROGRESS) (Some T3)] "create"
  = Ok [(Some R, [("start_time", PyDatetime T3); ("end_time", PyDatetime T2);
                  ("duration", PyFloat (T2 - T3))])] /\
  find_resources_with_longest_time
    [mkEvent (Some R) (Some CREATE_IN_PROGRESS) (Some T1);
     mkEvent (Some R) (Some CREATE_IN_PROGRESS) (Some T3);
     mkEvent (Some R) (Some CREATE_COMPLETE) (Some T2)] "create"
  = Raise TypeError.
Proof.
  split; [|reflexivity].
  unfold find_resources_with_longest_time. cbn.
  unfold rt_mem, dict_mem, rt_setitem_inner, rt_get, rt_set. cbn.
  rewrite String.eqb_refl. cbn. rewrite String.eqb_refl. reflexivity.
Qed.

(** C4 does not hold of the code in arrival order.  The in-progress event
    of a resource seen for the first time raises [TypeError]; only when the
    complete event is processed first is the duration [T2 - T1]. *)
Theorem C4_single_start_and_end (R : string) (T1 T2 : Z) :
  find_resources_with_longest_time
    [mkEvent (Some R) (Some CREATE_IN_PROGRESS) (Some T1);
     mkEvent (Some R) (Some CREATE_COMPLETE) (Some T2)] "create"
  = Raise TypeError /\
  find_resources_with_longest_time
    [mkEvent (Some R) (Some CREATE_COMPLETE) (Some T2);
     mkEvent (Some R) (Some CREATE_IN_PROGRESS) (Some T1)] "create"
  = Ok [(Some R, [("start_time", PyDatetime T1); ("end_time", PyDatetime T2);
                  ("duration", PyFloat (T2 - T1))])].
Proof.
  split; [reflexivity|].
  unfold find_resources_with_longest_time. cbn.
  unfold rt_mem, dict_mem, rt_setitem_inner, rt_get, rt_set. cbn.
  rewrite String.eqb_refl. reflexivity.
Qed.

(** C5 does not hold of the code: on the four-event scenario the first
    event is an in-progress event for a resource without a record, and the
    call raises [TypeError] instead of returning the two pairs. *)
Theorem C5_scenario_raises_TypeError (T0 : Z) :
  find_resources_with_longest_time
    [mkEvent (Some "R1") (Some CREATE_IN_PROGRESS) (Some T0);
     mkEvent (Some "R2") (Some CREATE_IN_PROGRESS) (Some (T0 + 1));
     mkEvent (Some "R1") (Some CREATE_COMPLETE) (Some (T0 + 5));
     mkEvent (Some "R2") (Some CREATE_COMPLETE) (Some (T0 + 2))] "create"
  = Raise TypeError.
Proof. reflexivity. Qed.

(** The same four events, newest first, are analysed as the scenario
    expects. *)
Example scenario_newest_first :
  find_resources_with_longest_time
    [mkEvent (Some "R1") (Some CREATE_COMPLETE) (Some 105);
     mkEvent (Some "R2") (Some CREATE_COMPLETE) (Some 102);
     mkEvent (Some "R2") (Some CREATE_IN_PROGRESS) (Some 101);
     mkEvent (Some "R1") (Some CREATE_IN_PROGRESS) (Some 100)] "create"
  = Ok [(Some "R1", [("start_time", PyDatetime 100); ("end_time", PyDatetime 105);
                     ("duration", PyFloat 5)]);
        (Some "R2", [("start_time", PyDatetime 101); ("end_time", PyDatetime 102);
                     ("duration", PyFloat 1)])].
Proof. reflexivity. Qed.

(** ** Durations of incomplete records *)

(** [d.get(key, default)] returns the stored value, [None] included, when
    the key is present. *)
Lemma dict_get_default_present (key : string) (default v : pyval) (t : times) :
  times_get key t = Some v ->
  dict_get_default String.eqb key default t = v.
Proof. unfold times_get, dict_get_default. now intros ->. Qed.

Lemma calculate_time_difference_None_l (end_time : pyval) :
  calculate_time_difference PyNone end_time = Raise TypeError.
Proof. destruct end_time; reflexivity. Qed.

Lemma calculate_time_difference_None_r (start_time : pyval) :
  calculate_time_difference start_time PyNone = Raise TypeError.
Proof. destruct start_time; reflexivity. Qed.

(** A record whose [start_time] or [end_time] holds [None] makes the
    duration loop raise when it is reached: the key is present, so
    [datetime.min] is not substituted. *)
Lemma add_durations_unset_raises (resource_id : option string) (t : times)
    (rest : resource_times_t) :
  times_get "start_time" t = Some PyNone \/ times_get "end_time" t = Some PyNone ->
  add_durations ((resource_id, t) :: rest) = Raise TypeError.
Proof.
  intros [H|H]; simpl; rewrite (dict_get_default_present _ _ _ _ H).
  - now rewrite calculate_time_difference_None_l.
  - now rewrite calculate_time_difference_None_r.
Qed.

(** C3 does not hold of the code: a resource with only a complete event
    has a record with [start_time] unset, and computing its duration raises
    [TypeError]; no number is produced. *)
Theorem C3_unset_start_time_raises_TypeError (R : option string) (T : Z) :
  process_events "create" [mkEvent R (Some CREATE_COMPLETE) (Some T)] []
  = Ok [(R, [("start_time", PyNone); ("end_time", PyDatetime T)])] /\
  find_resources_with_longest_time
    [mkEvent R (Some CREATE_COMPLETE) (Some T)] "create"
  = Raise TypeError.
Proof. split; reflexivity. Qed.

(** ** Complete events *)

Lemma status_is_iff (event : Event) (status : string) :
  status_is event status = true <-> ResourceStatus event = Some status.
Proof.
  unfold status_is. destruct (ResourceStatus event) as [s|].
  - rewrite String.eqb_eq. split; congruence.
  - split; discriminate.
Qed.

Lemma status_is_complete_not_in_progress (operation sip sc : string) (event : Event) :
  select_statuses operation = Ok (sip, sc) ->
  status_is event sc = true -> status_is event sip = false.
Proof.
  intros Hsel Hst. apply select_statuses_distinct in Hsel.
  apply status_is_iff in Hst. unfold status_is. now rewrite Hst.
Qed.

Ltac dict_simpl :=
  unfold recorded_end_time, rt_get, rt_set, times_get, times_set;
  repeat first
    [ rewrite (dict_get_set_same _ resource_id_eqb_eq)
    | rewrite (dict_get_set_same _ String.eqb_eq)
    | rewrite (dict_get_set_other _ resource_id_eqb_eq) by congruence
    | rewrite (dict_get_set_other _ String.eqb_eq) by discriminate ].

(** A complete event leaves its timestamp in [end_time]. *)
Lemma find_step_complete_end_time (operation sip sc : string)
    (rt rt' : resource_times_t) (event : Event) :
  select_statuses operation = Ok (sip, sc) ->
  status_is event sc = true ->
  find_step operation rt event = Ok rt' ->
  recorded_end_time (LogicalResourceId event) rt' = Some (event_timestamp event).
Proof.
  intros Hsel Hst Hstep.
  pose proof (status_is_complete_not_in_progress _ _ _ _ Hsel Hst) as Hnip.
  unfold find_step in Hstep. rewrite Hsel in Hstep. simpl in Hstep.
  rewrite Hnip, Hst in Hstep.
  unfold rt_mem, dict_mem, rt_setitem_inner, rt_get in Hstep.
  destruct (dict_get resource_id_eqb (LogicalResourceId event) rt) as [t|];
    simpl in Hstep; inversion Hstep; subst rt'; dict_simpl; reflexivity.
Qed.

(** Any other event leaves the [end_time] of the resource as it was. *)
Lemma find_step_other_end_time (operation sip sc : string)
    (rt rt' : resource_times_t) (event : Event) (resource_id : option string) :
  select_statuses operation = Ok (sip, sc) ->
  ~ (status_is event sc = true /\ LogicalResourceId event = resource_id) ->
  find_step operation rt event = Ok rt' ->
  recorded_end_time resource_id rt' = recorded_end_time resource_id rt.
Proof.
  intros Hsel Hnot Hstep.
  unfold find_step in Hstep. rewrite Hsel in Hstep. simpl in Hstep.
  unfold rt_mem, dict_mem, rt_setitem_inner, rt_get in Hstep.
  destruct (status_is event sip) eqn:Hip.
  - destruct (dict_get resource_id_eqb (LogicalResourceId event) rt) as [t|] eqn:Hget.
    + simpl in Hstep. inversion Hstep; subst rt'.
      destruct (resource_id_eqb resource_id (LogicalResourceId event)) eqn:E.
      * apply resource_id_eqb_eq in E. subst resource_id.
        dict_simpl. unfold rt_get in *. now rewrite Hget.
      * assert (resource_id <> LogicalResourceId event)
          by (intros ->; rewrite (eqb_refl_dict _ resource_id_eqb_eq) in E; discriminate).
        dict_simpl. reflexivity.
    + unfold rt_get_default, dict_get_default in Hstep. rewrite Hget in Hstep.
      simpl in Hstep. destruct (event_timestamp event); discriminate.
  - destruct (status_is event sc) eqn:Hc; [|now inversion Hstep].
    assert (resource_id <> LogicalResourceId event)
      by (intros ->; apply Hnot; auto).
    destruct (dict_get resource_id_eqb (LogicalResourceId event) rt) as [t|];
      simpl in Hstep; inversion Hstep; subst rt'; dict_simpl; reflexivity.
Qed.

Lemma process_events_keeps_end_time (operation sip sc : string)
    (events : list Event) (resource_id : option string) :
  select_statuses operation = Ok (sip, sc) ->
  (forall e, In e events ->
     ~ (status_is e sc = true /\ LogicalResourceId e = resource_id)) ->
  forall rt rt', process_events operation events rt = Ok rt' ->
  recorded_end_time resource_id rt' = recorded_end_time resource_id rt.
Proof.
  intros Hsel. induction events as [|e rest IH]; intros Hnone rt rt' Hrun.
  - now inversion Hrun.
  - simpl in Hrun. destruct (find_step operation rt e) as [rt1|] eqn:Hstep;
      simpl in Hrun; [|discriminate].
    rewrite (IH (fun e' He' => Hnone e' (or_intror He')) rt1 rt' Hrun).
    apply (find_step_other_end_time operation sip sc rt rt1 e); auto.
    apply Hnone. now left.
Qed.

(** When the loop over the events completes, the [end_time] recorded for a
    resource is the timestamp of its complete event that comes last in the
    input. *)
Lemma process_events_end_time_last_write (operation sip sc : string)
    (pre post : list Event) (event : Event) (rt : resource_times_t) :
  select_statuses operation = Ok (sip, sc) ->
  ResourceStatus event = Some sc ->
  (forall e, In e post ->
     ~ (ResourceStatus e = Some sc /\
        LogicalResourceId e = LogicalResourceId event)) ->
  process_events operation (pre ++ event :: post) [] = Ok rt ->
  recorded_end_time (LogicalResourceId event) rt = Some (event_timestamp event).
Proof.
  intros Hsel Hst Hlast Hrun.
  rewrite process_events_app in Hrun.
  destruct (process_events operation pre []) as [rt0|]; simpl in Hrun; [|discriminate].
  destruct (find_step operation rt0 event) as [rt1|] eqn:Hstep;
    simpl in Hrun; [|discriminate].
  rewrite (process_events_keeps_end_time operation sip sc post
             (LogicalResourceId event) Hsel) with (rt := rt1); auto.
  - apply (find_step_complete_end_time operation sip sc rt0); auto.
    now apply status_is_iff.
  - intros e He [Hc Hid]. apply (Hlast e He). split; auto.
    now apply status_is_iff.
Qed.

(** ** When the loop completes *)

Lemma rt_mem_set (resource_id k : option string) (v : times) (rt : resource_times_t) :
  rt_mem resource_id (rt_set k v rt) = resource_id_eqb resource_id k || rt_mem resource_id rt.
Proof.
  unfold rt_mem, dict_mem, rt_set.
  destruct (resource_id_eqb resource_id k) eqn:E.
  - apply resource_id_eqb_eq in E. subst k.
    now rewrite (dict_get_set_same _ resource_id_eqb_eq).
  - rewrite (dict_get_set_other _ resource_id_eqb_eq); [reflexivity|].
    intros ->. now rewrite (eqb_refl_dict _ resource_id_eqb_eq) in E.
Qed.

Lemma resource_id_eqb_sym (a b : option string) :
  resource_id_eqb a b = resource_id_eqb b a.
Proof. destruct a, b; simpl; auto using String.eqb_sym. Qed.

Lemma status_is_in_progress_not_complete (operation sip sc : string) (event : Event) :
  select_statuses operation = Ok (sip, sc) ->
  status_is event sip = true -> status_is event sc = false.
Proof.
  intros Hsel Hst. destruct (status_is event sc) eqn:Hc; [|reflexivity].
  rewrite (status_is_complete_not_in_progress _ _ _ _ Hsel Hc) in Hst. discriminate.
Qed.

(** The loop body raises exactly on an in-progress event for a resource
    without a record. *)
Lemma find_step_ok_iff (operation sip sc : string) (rt : resource_times_t)
    (event : Event) :
  select_statuses operation = Ok (sip, sc) ->
  (exists rt', find_step operation rt event = Ok rt') <->
  (status_is event sip = true -> rt_mem (LogicalResourceId event) rt = true).
Proof.
  intros Hsel. split.
  - intros [rt' Hstep] Hip.
    destruct (rt_mem (LogicalResourceId event) rt) eqn:Hmem; [reflexivity|].
    rewrite (find_step_in_progress_absent _ _ _ _ _ Hsel Hip Hmem) in Hstep.
    discriminate.
  - intros H. unfold find_step. rewrite Hsel. simpl.
    destruct (status_is event sip).
    + specialize (H eq_refl). rewrite H. simpl.
      unfold rt_setitem_inner. unfold rt_mem, dict_mem, rt_get in *.
      destruct (dict_get resource_id_eqb (LogicalResourceId event) rt);
        [eauto|discriminate].
    + destruct (status_is event sc); [|eauto].
      unfold rt_setitem_inner. unfold rt_mem, dict_mem, rt_get in *.
      destruct (dict_get resource_id_eqb (LogicalResourceId event) rt);
        simpl; eauto.
Qed.

(** Records are created by complete events only. *)
Lemma find_step_mem (operation sip sc : string) (rt rt' : resource_times_t)
    (event : Event) (resource_id : option string) :
  select_statuses operation = Ok (sip, sc) ->
  find_step operation rt event = Ok rt' ->
  rt_mem resource_id rt' =
  (status_is event sc && resource_id_eqb (LogicalResourceId event) resource_id)
  || rt_mem resource_id rt.
Proof.
  intros Hsel Hstep.
  assert (Hok : status_is event sip = true ->
                rt_mem (LogicalResourceId event) rt = true)
    by (apply (find_step_ok_iff operation sip sc); eauto).
  unfold find_step in Hstep. rewrite Hsel in Hstep. simpl in Hstep.
  destruct (status_is event sip) eqn:Hip.
  - rewrite (status_is_in_progress_not_complete _ _ _ _ Hsel Hip). simpl.
    specialize (Hok eq_refl). rewrite Hok in Hstep. simpl in Hstep.
    unfold rt_setitem_inner in Hstep.
    destruct (rt_get (LogicalResourceId event) rt); inversion Hstep.
    rewrite rt_mem_set.
    destruct (resource_id_eqb resource_id (LogicalResourceId event)) eqn:E;
      [|reflexivity].
    apply resource_id_eqb_eq in E. subst resource_id. now rewrite Hok.
  - destruct (status_is event sc); [|now inversion Hstep].
    simpl. rewrite (resource_id_eqb_sym (LogicalResourceId event)).
    unfold rt_setitem_inner in Hstep. unfold rt_mem, dict_mem, rt_get in Hstep.
    destruct (dict_get resource_id_eqb (LogicalResourceId event) rt) eqn:Hget;
      simpl in Hstep; inversion Hstep; rewrite rt_mem_set; reflexivity.
Qed.

Lemma process_events_ok_iff_from (operation sip sc : string) (events : list Event) :
  select_statuses operation = Ok (sip, sc) ->
  forall (seen : list Event) (rt : resource_times_t),
  (forall resource_id, rt_mem resource_id rt = complete_seen sc resource_id seen) ->
  (exists rt', process_events operation events rt = Ok rt') <->
  starts_have_records sip sc seen events = true.
Proof.
  intros Hsel. induction events as [|e rest IH]; intros seen rt Hinv; simpl.
  - split; eauto.
  - rewrite andb_true_iff, <- (Hinv (LogicalResourceId e)).
    pose proof (find_step_ok_iff operation sip sc rt e Hsel) as Hstep.
    destruct (find_step operation rt e) as [rt1|x] eqn:E; simpl.
    + assert (Hinv1 : forall resource_id,
                 rt_mem resource_id rt1 = complete_seen sc resource_id (e :: seen)).
      { intros resource_id. simpl. rewrite <- Hinv.
        apply (find_step_mem operation sip sc rt rt1 e); auto. }
      rewrite (IH (e :: seen) rt1 Hinv1).
      assert (Hip : status_is e sip = true -> rt_mem (LogicalResourceId e) rt = true)
        by (apply Hstep; eauto).
      split; [intros H; split; auto|tauto].
      destruct (status_is e sip); auto.
    + split; [intros [rt' H]; discriminate|].
      intros [H _]. exfalso.
      destruct Hstep as [_ Hs]. destruct Hs as [rt' Hrt']; [|discriminate].
      intros Hip. now rewrite Hip in H.
Qed.

(** With a valid operation, the loop over the events completes exactly when
    every in-progress event of the operation comes after a complete event of
    the same resource. *)
Lemma process_events_ok_iff (operation sip sc : string) (events : list Event) :
  select_statuses operation = Ok (sip, sc) ->
  (exists rt, process_events operation events [] = Ok rt) <->
  starts_have_records sip sc [] events = true.
Proof.
  intros Hsel. apply (process_events_ok_iff_from operation sip sc events Hsel).
  reflexivity.
Qed.

(** On the event sequences that the loop processes to the end (every
    in-progress event after a complete event of its resource), the
    [end_time] recorded for a resource is the timestamp of the complete event
    of that resource that comes last in the input, whatever the timestamps of
    its earlier complete events. *)
Lemma end_time_last_write_on_completed_loop (operation sip sc : string)
    (pre post : list Event) (event : Event) :
  select_statuses operation = Ok (sip, sc) ->
  ResourceStatus event = Some sc ->
  (forall e, In e post ->
     ~ (ResourceStatus e = Some sc /\
        LogicalResourceId e = LogicalResourceId event)) ->
  starts_have_records sip sc [] (pre ++ event :: post) = true ->
  exists rt,
    process_events operation (pre ++ event :: post) [] = Ok rt /\
    recorded_end_time (LogicalResourceId event) rt = Some (event_timestamp event).
Proof.
  intros Hsel Hst Hlast Hord.
  apply (process_events_ok_iff operation sip sc _ Hsel) in Hord.
  destruct Hord as [rt Hrun]. exists rt. split; [exact Hrun|].
  now apply (process_events_end_time_last_write operation sip sc pre post).
Qed.

(** C6 does not hold of the code on every arrival order.  With the
    in-progress event first, the loop and the whole call raise [TypeError]
    and no [end_time] is recorded; with a complete event first, the
    [end_time] recorded is that of the complete event processed last,
    [T4] in one order and [T2] in the other. *)
Theorem C6_end_time_by_arrival_order (R : string) (T1 T2 T4 : Z) :
  process_events "create"
    [mkEvent (Some R) (Some CREATE_IN_PROGRESS) (Some T1);
     mkEvent (Some R) (Some CREATE_COMPLETE) (Some T2);
     mkEvent (Some R) (Some CREATE_COMPLETE) (Some T4)] []
  = Raise TypeError /\
  find_resources_with_longest_time
    [mkEvent (Some R) (Some CREATE_IN_PROGRESS) (Some T1);
     mkEvent (Some R) (Some CREATE_COMPLETE) (Some T2);
     mkEvent (Some R) (Some CREATE_COMPLETE) (Some T4)] "create"
  = Raise TypeError /\
  process_events "create"
    [mkEvent (Some R) (Some CREATE_COMPLETE) (Some T2);
     mkEvent (Some R) (Some CREATE_IN_PROGRESS) (Some T1);
     mkEvent (Some R) (Some CREATE_COMPLETE) (Some T4)] []
  = Ok [(Some R, [("start_time", PyDatetime T1); ("end_time", PyDatetime T4)])] /\
  process_events "create"
    [mkEvent (Some R) (Some CREATE_COMPLETE) (Some T4);
     mkEvent (Some R) (Some CREATE_IN_PROGRESS) (Some T1);
     mkEvent (Some R) (Some CREATE_COMPLETE) (Some T2)] []
  = Ok [(Some R, [("start_time", PyDatetime T1); ("end_time", PyDatetime T2)])].
Proof.
  split; [reflexivity|]. split; [reflexivity|].
  split; cbn; unfold rt_mem, dict_mem, rt_setitem_inner, rt_get, rt_set; cbn;
    rewrite String.eqb_refl; cbn; rewrite String.eqb_refl; reflexivity.
Qed.

(** The later complete event processed first, the earlier one last: the
    earlier timestamp is the one kept. *)
Example end_time_not_the_later :
  process_events "create"
    [mkEvent (Some "R1") (Some "CREATE_COMPLETE") (Some 40);
     mkEvent (Some "R1") (Some "CREATE_IN_PROGRESS") (Some 10);
     mkEvent (Some "R1") (Some "CREATE_COMPLETE") (Some 20)] []
  = Ok [(Some "R1", [("start_time", PyDatetime 10); ("end_time", PyDatetime 20)])].
Proof. reflexivity. Qed.

(** ** Order of the result *)

Lemma insert_desc_In {A : Type} (x a : Z * A) (l : list (Z * A)) :
  In a (insert_desc x l) -> a = x \/ In a l.
Proof.
  induction l as [|y l IH]; simpl.
  - intros [H|[]]; auto.
  - destruct (fst x <? fst y); simpl.
    + intros [H|H]; auto. destruct (IH H); auto.
    + intros [H|[H|H]]; auto.
Qed.

Lemma sort_desc_In {A : Type} (a : Z * A) (l : list (Z * A)) :
  In a (sort_desc l) -> In a l.
Proof.
  induction l as [|x l IH]; simpl; [auto|].
  intros H. apply insert_desc_In in H. destruct H; auto.
Qed.

Lemma insert_desc_sorted {A : Type} (x : Z * A) (l : list (Z * A)) :
  StronglySorted key_ge l -> StronglySorted key_ge (insert_desc x l).
Proof.
  induction 1 as [|y l Hs IH Hall]; simpl.
  - repeat constructor.
  - destruct (fst x <? fst y) eqn:E.
    + constructor; [exact IH|].
      apply Forall_forall. intros a Ha.
      apply insert_desc_In in Ha. destruct Ha as [->|Ha].
      * unfold key_ge. apply Z.ltb_lt in E. lia.
      * rewrite Forall_forall in Hall. auto.
    + apply Z.ltb_ge in E. constructor.
      * now constructor.
      * constructor; [unfold key_ge; lia|].
        eapply Forall_impl; [|exact Hall].
        unfold key_ge. intros a Ha. lia.
Qed.

Lemma sort_desc_sorted {A : Type} (l : list (Z * A)) :
  StronglySorted key_ge (sort_desc l).
Proof.
  induction l as [|x l IH]; simpl; [constructor|].
  now apply insert_desc_sorted.
Qed.

(** Every decorated item carries the number of seconds of its own
    ["duration"]. *)
Lemma decorate_keys (items : resource_times_t)
    (keyed : list (Z * (option string * times))) :
  decorate items = Ok keyed ->
  Forall (fun kx => times_get "duration" (snd (snd kx)) = Some (PyFloat (fst kx)))
    keyed.
Proof.
  revert keyed. induction items as [|x items IH]; intros keyed H; simpl in H.
  - inversion H. constructor.
  - unfold duration_key in H.
    destruct (times_get "duration" (snd x)) as [[| |s]|] eqn:Hd;
      simpl in H; try discriminate.
    destruct (decorate items) as [rest|]; simpl in H; [|discriminate].
    inversion H; subst keyed. constructor; auto.
Qed.

Lemma sorted_by_duration_strongly_sorted (items sorted_resources : resource_times_t) :
  sorted_by_duration items = Ok sorted_resources ->
  StronglySorted duration_ge sorted_resources.
Proof.
  unfold sorted_by_duration. intros H.
  destruct (decorate items) as [keyed|] eqn:Hdec; simpl in H; [|discriminate].
  inversion H; subst sorted_resources; clear H.
  pose proof (decorate_keys _ _ Hdec) as Hkeys.
  assert (Hk : Forall (fun kx => duration_of (snd kx) = Some (fst kx))
                 (sort_desc keyed)).
  { apply Forall_forall. intros a Ha. apply sort_desc_In in Ha.
    rewrite Forall_forall in Hkeys. unfold duration_of. now rewrite (Hkeys a Ha). }
  pose proof (sort_desc_sorted keyed) as Hs.
  induction Hs as [|a l Hs IH Hall]; simpl; [constructor|].
  inversion Hk as [|? ? Ha Hl]; subst.
  constructor; [auto|].
  apply Forall_forall. intros y Hy. apply in_map_iff in Hy.
  destruct Hy as [b [<- Hb]].
  rewrite Forall_forall in Hall, Hl.
  exists (fst a), (fst b). repeat split; auto. apply (Hall b Hb).
Qed.

(** After the duration loop every item has a float ["duration"], so the
    sort raises nothing. *)
Lemma add_durations_then_sorted (rt items : resource_times_t) :
  add_durations rt = Ok items ->
  exists sorted_resources, sorted_by_duration items = Ok sorted_resources.
Proof.
  unfold sorted_by_duration. revert items.
  induction rt as [|[resource_id t] rt IH]; intros items H; simpl in H.
  - inversion H. simpl. eauto.
  - destruct (calculate_time_difference _ _) as [d|] eqn:Hd; simpl in H; [|discriminate].
    destruct (add_durations rt) as [rest|]; simpl in H; [|discriminate].
    inversion H; subst items. simpl.
    destruct (IH rest eq_refl) as [sorted_rest Hs].
    destruct (decorate rest) as [keyed|]; simpl in Hs; [|discriminate].
    unfold duration_key, times_get, times_set. simpl snd.
    rewrite (dict_get_set_same _ String.eqb_eq).
    unfold calculate_time_difference in Hd.
    destruct (dict_get_default String.eqb "end_time" datetime_min t);
      destruct (dict_get_default String.eqb "start_time" datetime_min t);
      inversion Hd. simpl. eauto.
Qed.

(** C7: the returned pairs are in descending order of duration: every pair
    has a duration, and it is greater than or equal to the duration of the
    next pair. *)
Theorem C7_result_sorted_descending (events : list Event) (operation : string)
    (sorted_resources : resource_times_t) :
  find_resources_with_longest_time events operation = Ok sorted_resources ->
  Forall (fun x => exists d, duration_of x = Some d) sorted_resources /\
  Sorted duration_ge sorted_resources.
Proof.
  unfold find_resources_with_longest_time. intros H.
  destruct (process_events operation events []) as [rt|]; simpl in H; [|discriminate].
  destruct (add_durations rt) as [items|]; simpl in H; [|discriminate].
  split.
  - unfold sorted_by_duration in H.
    destruct (decorate items) as [keyed|] eqn:Hdec; simpl in H; [|discriminate].
    inversion H; subst sorted_resources.
    apply Forall_forall. intros x Hx. apply in_map_iff in Hx.
    destruct Hx as [kx [<- Hin]]. apply sort_desc_In in Hin.
    pose proof (decorate_keys _ _ Hdec) as Hkeys. rewrite Forall_forall in Hkeys.
    exists (fst kx). unfold duration_of. now rewrite (Hkeys kx Hin).
  - apply StronglySorted_Sorted.
    now apply (sorted_by_duration_strongly_sorted items).
Qed.

Lemma C7_result_sorted_descending_witness :
  Forall (fun x => exists d, duration_of x = Some d)
    [(Some "R1", [("start_time", PyDatetime 100); ("end_time", PyDatetime 105);
                  ("duration", PyFloat 5)]);
     (Some "R3", [("start_time", PyDatetime 100); ("end_time", PyDatetime 103);
                  ("duration", PyFloat 3)]);
     (Some "R2", [("start_time", PyDatetime 101); ("end_time", PyDatetime 102);
                  ("duration", PyFloat 1)])] /\
  Sorted duration_ge
    [(Some "R1", [("start_time", PyDatetime 100); ("end_time", PyDatetime 105);
                  ("duration", PyFloat 5)]);
     (Some "R3", [("start_time", PyDatetime 100); ("end_time", PyDatetime 103);
                  ("duration", PyFloat 3)]);
     (Some "R2", [("start_time", PyDatetime 101); ("end_time", PyDatetime 102);
                  ("duration", PyFloat 1)])].
Proof.
  apply (C7_result_sorted_descending
           [mkEvent (Some "R2") (Some "CREATE_COMPLETE") (Some 102);
            mkEvent (Some "R3") (Some "CREATE_COMPLETE") (Some 103);
            mkEvent (Some "R1") (Some "CREATE_COMPLETE") (Some 105);
            mkEvent (Some "R2") (Some "CREATE_IN_PROGRESS") (Some 101);
            mkEvent (Some "R3") (Some "CREATE_IN_PROGRESS") (Some 100);
            mkEvent (Some "R1") (Some "CREATE_IN_PROGRESS") (Some 100)]
           "create").
  reflexivity.
Defined.

(** ** Pagination *)

Lemma truthy_nonempty (s : string) : s <> "" -> truthy (Some s) = true.
Proof. intros H. simpl. apply String.eqb_neq in H. now rewrite H. Qed.

(** One iteration that receives a page and a token to follow. *)
Lemma get_all_events_loop_continue (fuel : nat) (client : Client)
    (stack_name : string) (next_token : option string) (token : string)
    (page all_events : list Event) (requests : list Request) :
  (next_token = None \/ truthy next_token = true) ->
  token <> "" ->
  client (mkRequest stack_name next_token)
    = Ok (mkResponse (Some page) (Some token)) ->
  get_all_events_loop (S fuel) client stack_name next_token all_events requests
  = get_all_events_loop fuel client stack_name (Some token) (all_events ++ page)
      (requests ++ [mkRequest stack_name next_token]).
Proof.
  intros Hnt Htok Hresp. simpl.
  assert (Hreq : (if truthy next_token then mkRequest stack_name next_token
                  else mkRequest stack_name None)
                 = mkRequest stack_name next_token).
  { destruct Hnt as [ -> | -> ]; reflexivity. }
  rewrite Hreq, Hresp. cbn [StackEvents NextToken].
  now rewrite (truthy_nonempty _ Htok).
Qed.

(** The iteration that receives a page and no token ends the loop. *)
Lemma get_all_events_loop_last (fuel : nat) (client : Client)
    (stack_name : string) (next_token : option string)
    (page all_events : list Event) (requests : list Request) :
  (next_token = None \/ truthy next_token = true) ->
  client (mkRequest stack_name next_token) = Ok (mkResponse (Some page) None) ->
  get_all_events_loop (S fuel) client stack_name next_token all_events requests
  = Some (Ok (all_events ++ page),
          requests ++ [mkRequest stack_name next_token]).
Proof.
  intros Hnt Hresp. simpl.
  assert (Hreq : (if truthy next_token then mkRequest stack_name next_token
                  else mkRequest stack_name None)
                 = mkRequest stack_name next_token).
  { destruct Hnt as [ -> | -> ]; reflexivity. }
  now rewrite Hreq, Hresp.
Qed.

(** C8: against a source that answers the request without token with
    [page1] and token [A], the request with token [A] with [page2] and token
    [B], and the request with token [B] with [page3] and no token,
    [get_all_events] returns [page1 ++ page2 ++ page3] after exactly these
    three requests, as soon as the loop is given three iterations. *)
Theorem C8_three_pages_concatenated (boto3_client : string -> Client)
    (stack_name region A B : string) (page1 page2 page3 : list Event)
    (fuel : nat) :
  A <> "" -> B <> "" ->
  boto3_client region (mkRequest stack_name None)
    = Ok (mkResponse (Some page1) (Some A)) ->
  boto3_client region (mkRequest stack_name (Some A))
    = Ok (mkResponse (Some page2) (Some B)) ->
  boto3_client region (mkRequest stack_name (Some B))
    = Ok (mkResponse (Some page3) None) ->
  (3 <= fuel)%nat ->
  get_all_events boto3_client fuel stack_name region
  = Some (Ok (page1 ++ page2 ++ page3),
          [mkRequest stack_name None;
           mkRequest stack_name (Some A);
           mkRequest stack_name (Some B)]).
Proof.
  intros HA HB H1 H2 H3 Hfuel.
  destruct fuel as [|[|[|fuel]]]; try lia.
  unfold get_all_events.
  rewrite (get_all_events_loop_continue _ _ _ None A page1); auto.
  rewrite (get_all_events_loop_continue _ _ _ (Some A) B page2);
    auto using truthy_nonempty.
  rewrite (get_all_events_loop_last _ _ _ (Some B) page3);
    auto using truthy_nonempty.
  simpl. now rewrite <- app_assoc.
Qed.

Lemma C8_three_pages_concatenated_witness :
  get_all_events three_page_client 5 "stack" "eu-west-1"
  = Some (Ok ([mkEvent (Some "R1") (Some "CREATE_COMPLETE") (Some 5)]
                ++ [mkEvent (Some "R1") (Some "CREATE_IN_PROGRESS") (Some 2)]
                ++ [mkEvent (Some "R1") (Some "CREATE_IN_PROGRESS") (Some 1)]),
          [mkRequest "stack" None;
           mkRequest "stack" (Some "A");
           mkRequest "stack" (Some "B")]).
Proof.
  apply (C8_three_pages_concatenated three_page_client "stack" "eu-west-1" "A" "B").
  - discriminate.
  - discriminate.
  - reflexivity.
  - reflexivity.
  - reflexivity.
  - lia.
Defined.

(** * Further properties *)

(** ** Pagination in general *)

Lemma get_all_events_loop_step (fuel : nat) (client : Client)
    (stack_name : string) (next_token : option string)
    (all_events : list Event) (requests : list Request) :
  (next_token = None \/ truthy next_token = true) ->
  get_all_events_loop (S fuel) client stack_name next_token all_events requests
  = match client (mkRequest stack_name next_token) with
    | Raise e => Some (Raise e, requests ++ [mkRequest stack_name next_token])
    | Ok response =>
        if truthy (NextToken response) then
          get_all_events_loop fuel client stack_name (NextToken response)
            (all_events ++ response_events response)
            (requests ++ [mkRequest stack_name next_token])
        else Some (Ok (all_events ++ response_events response),
                   requests ++ [mkRequest stack_name next_token])
    end.
Proof.
  intros Hnt. simpl.
  assert (Hreq : (if truthy next_token then mkRequest stack_name next_token
                  else mkRequest stack_name None)
                 = mkRequest stack_name next_token).
  { destruct Hnt as [ -> | -> ]; reflexivity. }
  rewrite Hreq. destruct (client (mkRequest stack_name next_token)) as [resp|e];
    [|reflexivity].
  unfold response_events. destruct (truthy (NextToken resp)); reflexivity.
Qed.

(** The loop along a chain of pages, from any state. *)
Lemma get_all_events_loop_chain (client : Client) (stack_name : string)
    (pages : list (list Event * string)) (final : result Response) :
  forall (fuel : nat) (next_token : option string) (all_events : list Event)
         (requests : list Request),
  (next_token = None \/ truthy next_token = true) ->
  answers client stack_name next_token pages final ->
  (List.length pages < fuel)%nat ->
  get_all_events_loop fuel client stack_name next_token all_events requests
  = match final with
    | Raise e =>
        Some (Raise e,
              requests ++ mkRequest stack_name next_token
                            :: token_requests stack_name pages)
    | Ok response =>
        if truthy (NextToken response) then
          get_all_events_loop (fuel - S (List.length pages)) client stack_name
            (NextToken response)
            (all_events ++ List.concat (map fst pages) ++ response_events response)
            (requests ++ mkRequest stack_name next_token
                           :: token_requests stack_name pages)
        else
          Some (Ok (all_events ++ List.concat (map fst pages) ++ response_events response),
                requests ++ mkRequest stack_name next_token
                              :: token_requests stack_name pages)
    end.
Proof.
  induction pages as [|[page token] rest IH];
    intros fuel next_token all_events requests Hnt Hans Hfuel;
    (destruct fuel as [|fuel]; [simpl in Hfuel; lia|]);
    rewrite (get_all_events_loop_step _ _ _ _ _ _ Hnt).
  - simpl in Hans. rewrite Hans. simpl. rewrite Nat.sub_0_r.
    destruct final; reflexivity.
  - destruct Hans as [Htok [Hresp Hrest]]. rewrite Hresp.
    cbn [NextToken]. rewrite (truthy_nonempty _ Htok).
    rewrite (IH fuel (Some token)); auto using truthy_nonempty;
      [|simpl in Hfuel; lia].
    unfold response_events at 1. cbn [StackEvents].
    unfold token_requests. cbn [map fst snd List.concat List.length].
    replace (S fuel - S (S (List.length rest)))%nat
      with (fuel - S (List.length rest))%nat by lia.
    destruct final; rewrite <- !app_assoc; reflexivity.
Qed.

(** X1: against a source that answers along a chain of pages and tokens and
    ends with a response whose token is absent or empty, [get_all_events]
    returns all the pages in order, followed by the events of the last
    response (none when it has no ['StackEvents']), after one request without
    token and one request per token. *)
Theorem X1_pagination_follows_every_token (boto3_client : string -> Client)
    (stack_name region : string) (pages : list (list Event * string))
    (response : Response) (fuel : nat) :
  answers (boto3_client region) stack_name None pages (Ok response) ->
  truthy (NextToken response) = false ->
  (List.length pages < fuel)%nat ->
  get_all_events boto3_client fuel stack_name region
  = Some (Ok (List.concat (map fst pages) ++ response_events response),
          mkRequest stack_name None :: token_requests stack_name pages).
Proof.
  intros Hans Hlast Hfuel. unfold get_all_events.
  rewrite (get_all_events_loop_chain _ _ pages (Ok response)); auto.
  now rewrite Hlast.
Qed.

Lemma X1_pagination_follows_every_token_witness :
  get_all_events (fun _ => two_page_client) 2 "stack" "eu-west-1"
  = Some (Ok [mkEvent (Some "R1") (Some "CREATE_COMPLETE") (Some 5)],
          [mkRequest "stack" None; mkRequest "stack" (Some "t1")]).
Proof.
  apply (X1_pagination_follows_every_token (fun _ => two_page_client)
           "stack" "eu-west-1"
           [([mkEvent (Some "R1") (Some "CREATE_COMPLETE") (Some 5)], "t1")]
           (mkResponse None (Some ""))).
  - simpl. repeat split. discriminate.
  - reflexivity.
  - simpl. lia.
Defined.

(** X2: when a request along the chain raises, [get_all_events] raises the
    same exception right after that request; the pages received before it
    are not returned. *)
Theorem X2_pagination_error_propagates (boto3_client : string -> Client)
    (stack_name region : string) (pages : list (list Event * string))
    (e : exn) (fuel : nat) :
  answers (boto3_client region) stack_name None pages (Raise e) ->
  (List.length pages < fuel)%nat ->
  get_all_events boto3_client fuel stack_name region
  = Some (Raise e, mkRequest stack_name None :: token_requests stack_name pages).
Proof.
  intros Hans Hfuel. unfold get_all_events.
  now rewrite (get_all_events_loop_chain _ _ pages (Raise e)); auto.
Qed.

Lemma X2_pagination_error_propagates_witness :
  get_all_events (fun _ => throttled_client) 2 "stack" "eu-west-1"
  = Some (Raise (ClientError "Throttling"),
          [mkRequest "stack" None; mkRequest "stack" (Some "t1")]).
Proof.
  apply (X2_pagination_error_propagates (fun _ => throttled_client)
           "stack" "eu-west-1"
           [([mkEvent (Some "R1") (Some "CREATE_COMPLETE") (Some 5)], "t1")]).
  - simpl. repeat split. discriminate.
  - simpl. lia.
Defined.

Lemma get_all_events_loop_endless (client : Client) (stack_name : string) :
  (forall request, exists page token,
      client request = Ok (mkResponse page (Some token)) /\ token <> "") ->
  forall (fuel : nat) (next_token : option string) (all_events : list Event)
         (requests : list Request),
  get_all_events_loop fuel client stack_name next_token all_events requests = None.
Proof.
  intros Hc. induction fuel as [|fuel IH]; intros; simpl; [reflexivity|].
  match goal with |- context [client ?r] => destruct (Hc r) as [page [token [-> Htok]]] end.
  cbn [NextToken]. rewrite (truthy_nonempty _ Htok). simpl. apply IH.
Qed.

(** X3: the loop has no bound of its own: against a source that answers
    every request with a non-empty token, [get_all_events] does not return,
    however many iterations it is given. *)
Theorem X3_pagination_never_ends_on_endless_tokens
    (boto3_client : string -> Client) (stack_name region : string) :
  (forall request, exists page token,
      boto3_client region request = Ok (mkResponse page (Some token))
      /\ token <> "") ->
  forall fuel, get_all_events boto3_client fuel stack_name region = None.
Proof.
  intros Hc fuel. unfold get_all_events.
  now apply get_all_events_loop_endless.
Qed.

Lemma X3_pagination_never_ends_on_endless_tokens_witness :
  get_all_events (fun _ => endless_client) 100 "stack" "eu-west-1" = None.
Proof.
  apply (X3_pagination_never_ends_on_endless_tokens (fun _ => endless_client)).
  intros request. exists (Some []), "A". split; [reflexivity|discriminate].
Defined.

(** ** calculate_times *)

(** X4: when fetching raises, [calculate_times] raises the same exception
    and prints nothing, whatever the operation: no report is made from the
    pages already received. *)
Theorem X4_calculate_times_fetch_error (boto3_client : string -> Client)
    (stack_name region operation : string) (pages : list (list Event * string))
    (e : exn) (fuel : nat) :
  answers (boto3_client region) stack_name None pages (Raise e) ->
  (List.length pages < fuel)%nat ->
  calculate_times boto3_client fuel stack_name region operation
  = Some (([], Raise e),
          mkRequest stack_name None :: token_requests stack_name pages).
Proof.
  intros Hans Hfuel. unfold calculate_times, get_all_events.
  now rewrite (get_all_events_loop_chain _ _ pages (Raise e)); auto.
Qed.

Lemma X4_calculate_times_fetch_error_witness :
  calculate_times (fun _ => throttled_client) 2 "stack" "eu-west-1" "create"
  = Some (([], Raise (ClientError "Throttling")),
          [mkRequest "stack" None; mkRequest "stack" (Some "t1")]).
Proof.
  apply (X4_calculate_times_fetch_error (fun _ => throttled_client)
           "stack" "eu-west-1" "create"
           [([mkEvent (Some "R1") (Some "CREATE_COMPLETE") (Some 5)], "t1")]).
  - simpl. repeat split. discriminate.
  - simpl. lia.
Defined.

(** X5: [calculate_times] looks at the operation only after all the events
    are fetched: with an operation other than ["create"] and ["delete"] it
    still issues every request of the pagination, then prints the
    invalid-operation message and returns normally. *)
Theorem X5_calculate_times_validates_after_fetching
    (boto3_client : string -> Client) (stack_name region operation : string)
    (pages : list (list Event * string)) (response : Response) (fuel : nat) :
  operation <> "create" -> operation <> "delete" ->
  answers (boto3_client region) stack_name None pages (Ok response) ->
  truthy (NextToken response) = false ->
  (List.length pages < fuel)%nat ->
  calculate_times boto3_client fuel stack_name region operation
  = Some (([Line invalid_operation_msg], Ok tt),
          mkRequest stack_name None :: token_requests stack_name pages).
Proof.
  intros Hc Hd Hans Hlast Hfuel. unfold calculate_times, get_all_events.
  rewrite (get_all_events_loop_chain _ _ pages (Ok response)); auto.
  rewrite Hlast. unfold analyze_events. simpl.
  apply String.eqb_neq in Hc. apply String.eqb_neq in Hd.
  now rewrite Hc, Hd.
Qed.

Lemma X5_calculate_times_validates_after_fetching_witness :
  calculate_times (fun _ => two_page_client) 2 "stack" "eu-west-1" "update"
  = Some (([Line invalid_operation_msg], Ok tt),
          [mkRequest "stack" None; mkRequest "stack" (Some "t1")]).
Proof.
  apply (X5_calculate_times_validates_after_fetching (fun _ => two_page_client)
           "stack" "eu-west-1" "update"
           [([mkEvent (Some "R1") (Some "CREATE_COMPLETE") (Some 5)], "t1")]
           (mkResponse None (Some ""))).
  - discriminate.
  - discriminate.
  - simpl. repeat split. discriminate.
  - reflexivity.
  - simpl. lia.
Defined.

(** ** What the loop over the events builds *)

Lemma last_timestamp_snoc (status : string) (resource_id : option string)
    (events : list Event) (e : Event) :
  last_timestamp status resource_id (events ++ [e])
  = if status_is e status && resource_id_eqb (LogicalResourceId e) resource_id
    then event_timestamp e
    else last_timestamp status resource_id events.
Proof. unfold last_timestamp. now rewrite fold_left_app. Qed.

Lemma process_events_snoc (operation : string) (events : list Event) (e : Event)
    (rt : resource_times_t) :
  process_events operation (events ++ [e]) rt
  = (rt' <- process_events operation events rt ;; find_step operation rt' e).
Proof.
  rewrite process_events_app. destruct (process_events operation events rt);
    simpl; [|reflexivity].
  destruct (find_step operation a e); reflexivity.
Qed.

Lemma find_step_inv (operation sip sc : string) (events : list Event)
    (rt rt' : resource_times_t) (e : Event) :
  select_statuses operation = Ok (sip, sc) ->
  loop_inv sip sc events rt ->
  find_step operation rt e = Ok rt' ->
  loop_inv sip sc (events ++ [e]) rt'.
Proof.
  intros Hsel Hinv Hstep resource_id.
  unfold record_of. simpl snd. rewrite !last_timestamp_snoc.
  pose proof (Hinv resource_id) as Hr. pose proof (Hinv (LogicalResourceId e)) as He.
  unfold record_of in Hr, He. simpl snd in Hr, He.
  assert (Hneq : resource_id_eqb (LogicalResourceId e) resource_id = false ->
                 resource_id <> LogicalResourceId e).
  { intros E ->. now rewrite (eqb_refl_dict _ resource_id_eqb_eq) in E. }
  destruct (status_is e sip) eqn:Hip.
  - rewrite (status_is_in_progress_not_complete _ _ _ _ Hsel Hip). simpl andb.
    assert (Hmem : rt_mem (LogicalResourceId e) rt = true)
      by (apply (find_step_ok_iff operation sip sc rt e Hsel); eauto).
    unfold rt_mem, dict_mem in Hmem. unfold rt_get in *.
    destruct (dict_get resource_id_eqb (LogicalResourceId e) rt) as [t0|] eqn:Hget;
      [|discriminate].
    rewrite (find_step_in_progress_present _ _ _ _ _ t0 Hsel Hip Hget) in Hstep.
    inversion Hstep; subst rt'. unfold rt_set.
    destruct (resource_id_eqb (LogicalResourceId e) resource_id) eqn:E.
    + apply resource_id_eqb_eq in E. subst resource_id.
      rewrite (dict_get_set_same _ resource_id_eqb_eq). subst t0. reflexivity.
    + rewrite (dict_get_set_other _ resource_id_eqb_eq) by auto. exact Hr.
  - simpl andb at 1.
    unfold find_step in Hstep. rewrite Hsel in Hstep. simpl in Hstep.
    rewrite Hip in Hstep.
    destruct (status_is e sc) eqn:Hc; [|inversion Hstep; subst rt'; exact Hr].
    unfold rt_mem, dict_mem, rt_setitem_inner in Hstep. unfold rt_get, rt_set in *.
    destruct (dict_get resource_id_eqb (LogicalResourceId e) rt) as [t0|] eqn:Hget;
      simpl in Hstep; inversion Hstep; subst rt';
      (destruct (resource_id_eqb (LogicalResourceId e) resource_id) eqn:E;
       [ apply resource_id_eqb_eq in E; subst resource_id;
         rewrite (dict_get_set_same _ resource_id_eqb_eq)
       | rewrite (dict_get_set_other _ resource_id_eqb_eq) by auto; exact Hr ]).
    + subst t0. reflexivity.
    + rewrite Hget in Hr. now rewrite Hr.
Qed.

Lemma process_events_inv (operation sip sc : string) (events : list Event) :
  select_statuses operation = Ok (sip, sc) ->
  forall rt, process_events operation events [] = Ok rt ->
  loop_inv sip sc events rt.
Proof.
  intros Hsel. induction events as [|e events IH] using rev_ind; intros rt Hrun.
  - inversion Hrun. intros resource_id. reflexivity.
  - rewrite process_events_snoc in Hrun.
    destruct (process_events operation events []) as [rt0|]; simpl in Hrun;
      [|discriminate].
    apply (find_step_inv operation sip sc events rt0 rt e); auto.
Qed.

Lemma dict_set_keys {K V : Type} (eqb : K -> K -> bool) (k : K) (v : V)
    (d : list (K * V)) :
  map fst (dict_set eqb k v d)
  = if dict_mem eqb k d then map fst d else map fst d ++ [k].
Proof.
  unfold dict_mem. induction d as [|[k' v'] d IH]; simpl; [reflexivity|].
  destruct (eqb k k'); simpl; [reflexivity|].
  rewrite IH. destruct (dict_get eqb k d); reflexivity.
Qed.

Lemma dict_mem_existsb {K V : Type} (eqb : K -> K -> bool) (k : K)
    (d : list (K * V)) :
  dict_mem eqb k d = existsb (eqb k) (map fst d).
Proof.
  unfold dict_mem. induction d as [|[k' v'] d IH]; simpl; [reflexivity|].
  destruct (eqb k k'); simpl; auto.
Qed.

(** Only a complete event for a resource without a record adds a key, at
    the end. *)
Lemma find_step_keys (operation sip sc : string) (rt rt' : resource_times_t)
    (e : Event) :
  select_statuses operation = Ok (sip, sc) ->
  find_step operation rt e = Ok rt' ->
  map fst rt'
  = if status_is e sc && negb (rt_mem (LogicalResourceId e) rt)
    then map fst rt ++ [LogicalResourceId e] else map fst rt.
Proof.
  intros Hsel Hstep.
  assert (Hok : status_is e sip = true -> rt_mem (LogicalResourceId e) rt = true)
    by (apply (find_step_ok_iff operation sip sc rt e Hsel); eauto).
  unfold find_step in Hstep. rewrite Hsel in Hstep. simpl in Hstep.
  destruct (status_is e sip) eqn:Hip.
  - rewrite (status_is_in_progress_not_complete _ _ _ _ Hsel Hip). simpl.
    specialize (Hok eq_refl). rewrite Hok in Hstep. simpl in Hstep.
    unfold rt_setitem_inner in Hstep.
    destruct (rt_get (LogicalResourceId e) rt); inversion Hstep.
    unfold rt_set. rewrite dict_set_keys. fold rt_mem. now rewrite Hok.
  - destruct (status_is e sc); [|now inversion Hstep]. simpl.
    unfold rt_setitem_inner in Hstep.
    destruct (rt_mem (LogicalResourceId e) rt) eqn:Hmem; simpl in Hstep.
    + destruct (rt_get (LogicalResourceId e) rt); inversion Hstep.
      unfold rt_set. rewrite dict_set_keys. fold rt_mem. now rewrite Hmem.
    + inversion Hstep. unfold rt_set. rewrite dict_set_keys. fold rt_mem.
      now rewrite Hmem.
Qed.

Lemma existsb_resource_id_In (k : option string) (l : list (option string)) :
  existsb (resource_id_eqb k) l = true <-> In k l.
Proof.
  rewrite existsb_exists. split.
  - intros [x [Hin Heq]]. apply resource_id_eqb_eq in Heq. now subst.
  - intros Hin. exists k. split; [exact Hin|now apply resource_id_eqb_eq].
Qed.

Lemma encounter_order_snoc (sc : string) (events : list Event) (e : Event) :
  encounter_order sc (events ++ [e])
  = if status_is e sc
       && negb (existsb (resource_id_eqb (LogicalResourceId e))
                  (encounter_order sc events))
    then encounter_order sc events ++ [LogicalResourceId e]
    else encounter_order sc events.
Proof.
  unfold encounter_order. rewrite filter_app. simpl.
  destruct (status_is e sc); simpl; [|now rewrite app_nil_r].
  rewrite map_app, rev_app_distr. simpl.
  set (l := rev (map LogicalResourceId (filter (fun e0 => status_is e0 sc) events))).
  destruct (in_dec resource_id_eq_dec (LogicalResourceId e) l) as [Hin|Hnin].
  - assert (H : existsb (resource_id_eqb (LogicalResourceId e))
                  (rev (nodup resource_id_eq_dec l)) = true).
    { apply existsb_resource_id_In. apply in_rev. rewrite rev_involutive.
      now apply nodup_In. }
    now rewrite H.
  - assert (H : existsb (resource_id_eqb (LogicalResourceId e))
                  (rev (nodup resource_id_eq_dec l)) = false).
    { destruct (existsb _ _) eqn:E; [|reflexivity].
      apply existsb_resource_id_In in E. apply in_rev in E.
      apply nodup_In in E. contradiction. }
    now rewrite H.
Qed.

Lemma encounter_order_NoDup (sc : string) (events : list Event) :
  NoDup (encounter_order sc events).
Proof. unfold encounter_order. apply NoDup_rev, NoDup_nodup. Qed.

Lemma encounter_order_In (sc : string) (events : list Event)
    (resource_id : option string) :
  In resource_id (encounter_order sc events) <->
  exists e, In e events /\ ResourceStatus e = Some sc
            /\ LogicalResourceId e = resource_id.
Proof.
  unfold encounter_order. rewrite <- in_rev, nodup_In, <- in_rev, in_map_iff.
  split.
  - intros [e [Hid Hin]]. apply filter_In in Hin. destruct Hin as [Hin Hst].
    exists e. repeat split; auto. now apply status_is_iff.
  - intros [e [Hin [Hst Hid]]]. exists e. split; [exact Hid|].
    apply filter_In. split; [exact Hin|now apply status_is_iff].
Qed.

Lemma process_events_keys (operation sip sc : string) (events : list Event) :
  select_statuses operation = Ok (sip, sc) ->
  forall rt, process_events operation events [] = Ok rt ->
  map fst rt = encounter_order sc events.
Proof.
  intros Hsel. induction events as [|e events IH] using rev_ind; intros rt Hrun.
  - inversion Hrun. reflexivity.
  - rewrite process_events_snoc in Hrun.
    destruct (process_events operation events []) as [rt0|]; simpl in Hrun;
      [|discriminate].
    rewrite (find_step_keys operation sip sc rt0 rt e Hsel Hrun).
    rewrite encounter_order_snoc. unfold rt_mem.
    now rewrite dict_mem_existsb, (IH rt0 eq_refl).
Qed.

Lemma dict_get_Some_In {K V : Type} (eqb : K -> K -> bool)
    (eqb_eq : forall a b, eqb a b = true <-> a = b)
    (k : K) (v : V) (d : list (K * V)) :
  dict_get eqb k d = Some v -> In k (map fst d).
Proof.
  induction d as [|[k' v'] d IH]; simpl; [discriminate|].
  destruct (eqb k k') eqn:E.
  - apply eqb_eq in E. auto.
  - auto.
Qed.

(** A dict without repeated keys is the list of its keys, each with the
    value a lookup returns. *)
Lemma dict_as_map {K V : Type} (eqb : K -> K -> bool)
    (eqb_eq : forall a b, eqb a b = true <-> a = b)
    (f : K -> V) (d : list (K * V)) :
  NoDup (map fst d) ->
  (forall k v, dict_get eqb k d = Some v -> v = f k) ->
  d = map (fun k => (k, f k)) (map fst d).
Proof.
  induction d as [|[k v] d IH]; intros Hnd Hf; simpl; [reflexivity|].
  simpl in Hnd. inversion Hnd as [|? ? Hnin Hnd']; subst.
  f_equal.
  - f_equal. apply (Hf k). simpl. now rewrite (eqb_refl_dict _ eqb_eq).
  - apply IH; [exact Hnd'|].
    intros k0 v0 Hget. apply (Hf k0). simpl.
    destruct (eqb k0 k) eqn:E; [|exact Hget].
    apply eqb_eq in E. subst k0.
    apply (dict_get_Some_In _ eqb_eq) in Hget. contradiction.
Qed.

(** The mapping the completed loop leaves. *)
Lemma process_events_result (operation sip sc : string) (events : list Event)
    (rt : resource_times_t) :
  select_statuses operation = Ok (sip, sc) ->
  process_events operation events [] = Ok rt ->
  rt = map (record_of sip sc events) (encounter_order sc events).
Proof.
  intros Hsel Hrun.
  pose proof (process_events_keys operation sip sc events Hsel rt Hrun) as Hkeys.
  pose proof (process_events_inv operation sip sc events Hsel rt Hrun) as Hinv.
  rewrite <- Hkeys.
  apply (dict_as_map resource_id_eqb resource_id_eqb_eq
           (fun k => snd (record_of sip sc events k))).
  - rewrite Hkeys. apply encounter_order_NoDup.
  - intros k v Hget. specialize (Hinv k). unfold rt_get in Hinv.
    now rewrite Hget in Hinv.
Qed.

(** With a valid operation the loop body raises nothing but [TypeError]. *)
Lemma find_step_raises_TypeError (operation sip sc : string)
    (rt : resource_times_t) (e : Event) (x : exn) :
  select_statuses operation = Ok (sip, sc) ->
  find_step operation rt e = Raise x -> x = TypeError.
Proof.
  intros Hsel Hstep.
  destruct (status_is e sip) eqn:Hip.
  - destruct (rt_mem (LogicalResourceId e) rt) eqn:Hmem.
    + assert (Hex : exists rt', find_step operation rt e = Ok rt')
        by (apply (find_step_ok_iff operation sip sc rt e Hsel); auto).
      destruct Hex as [rt' Hrt']. congruence.
    + rewrite (find_step_in_progress_absent _ _ _ _ _ Hsel Hip Hmem) in Hstep.
      congruence.
  - assert (Hex : exists rt', find_step operation rt e = Ok rt')
      by (apply (find_step_ok_iff operation sip sc rt e Hsel); congruence).
    destruct Hex as [rt' Hrt']. congruence.
Qed.

Lemma process_events_raises_TypeError (operation sip sc : string)
    (events : list Event) (x : exn) :
  select_statuses operation = Ok (sip, sc) ->
  forall rt, process_events operation events rt = Raise x -> x = TypeError.
Proof.
  intros Hsel. induction events as [|e events IH]; intros rt Hrun; simpl in Hrun.
  - discriminate.
  - destruct (find_step operation rt e) as [rt1|y] eqn:Hstep; simpl in Hrun.
    + eauto.
    + inversion Hrun; subst y.
      now apply (find_step_raises_TypeError operation sip sc rt e).
Qed.

(** The loop, as a function of the events. *)
Lemma process_events_spec (operation sip sc : string) (events : list Event) :
  select_statuses operation = Ok (sip, sc) ->
  process_events operation events []
  = if starts_have_records sip sc [] events
    then Ok (map (record_of sip sc events) (encounter_order sc events))
    else Raise TypeError.
Proof.
  intros Hsel.
  pose proof (process_events_ok_iff operation sip sc events Hsel) as Hiff.
  destruct (process_events operation events []) as [rt|x] eqn:Hrun.
  - assert (Hs : starts_have_records sip sc [] events = true)
      by (apply Hiff; eauto).
    rewrite Hs. f_equal.
    now apply (process_events_result operation sip sc events rt).
  - destruct (starts_have_records sip sc [] events).
    + destruct Hiff as [_ Hex]. destruct (Hex eq_refl) as [rt Hrt]. discriminate.
    + f_equal.
      now apply (process_events_raises_TypeError operation sip sc events x Hsel []).
Qed.

(** ** What the whole function returns *)

Lemma last_timestamp_not_float (status : string) (resource_id : option string)
    (events : list Event) (s : Z) :
  last_timestamp status resource_id events <> PyFloat s.
Proof.
  induction events as [|e events IH] using rev_ind; [discriminate|].
  rewrite last_timestamp_snoc.
  destruct (status_is e status && resource_id_eqb (LogicalResourceId e) resource_id);
    [|exact IH].
  unfold event_timestamp. destruct (Timestamp e); discriminate.
Qed.

(** The duration loop on the records of the completed loop. *)
Lemma add_durations_records (sip sc : string) (events : list Event)
    (ks : list (option string)) :
  add_durations (map (record_of sip sc events) ks)
  = if forallb (fun k => is_datetime (last_timestamp sip k events)
                         && is_datetime (last_timestamp sc k events)) ks
    then Ok (map (timed_of sip sc events) ks)
    else Raise TypeError.
Proof.
  induction ks as [|k ks IH]; [reflexivity|].
  cbn [map forallb]. unfold record_of at 1. cbn [add_durations].
  unfold dict_get_default. cbn [dict_get String.eqb Ascii.eqb Bool.eqb].
  unfold timed_of at 1.
  pose proof (last_timestamp_not_float sip k events) as Hs.
  pose proof (last_timestamp_not_float sc k events) as He.
  destruct (last_timestamp sip k events) as [|ts|fs];
    destruct (last_timestamp sc k events) as [|te|fe];
    try (exfalso; eapply Hs; reflexivity);
    try (exfalso; eapply He; reflexivity);
    cbn [calculate_time_difference bind is_datetime andb]; try reflexivity.
  rewrite IH. destruct (forallb _ ks); reflexivity.
Qed.

Lemma decorate_timed (sip sc : string) (events : list Event)
    (ks : list (option string)) :
  decorate (map (timed_of sip sc events) ks)
  = Ok (map (fun k => (duration_seconds (timed_of sip sc events k),
                       timed_of sip sc events k)) ks).
Proof.
  induction ks as [|k ks IH]; [reflexivity|].
  cbn [map decorate]. rewrite IH. reflexivity.
Qed.

(** The whole function, as a function of the events. *)
Lemma find_resources_spec (operation sip sc : string) (events : list Event) :
  select_statuses operation = Ok (sip, sc) ->
  find_resources_with_longest_time events operation
  = if starts_have_records sip sc [] events && all_timed sip sc events
    then Ok (expected_result sip sc events)
    else Raise TypeError.
Proof.
  intros Hsel. unfold find_resources_with_longest_time.
  rewrite (process_events_spec operation sip sc events Hsel).
  destruct (starts_have_records sip sc [] events); [|reflexivity].
  cbn [bind andb]. rewrite add_durations_records. fold (all_timed sip sc events).
  destruct (all_timed sip sc events); [|reflexivity].
  cbn [bind]. unfold sorted_by_duration. now rewrite decorate_timed.
Qed.

Lemma is_datetime_seconds (v : pyval) :
  is_datetime v = true -> v = PyDatetime (seconds v).
Proof. destruct v; simpl; congruence. Qed.

Lemma expected_result_In (sip sc : string) (events : list Event)
    (x : option string * times) :
  In x (expected_result sip sc events) ->
  exists k, In k (encounter_order sc events) /\ x = timed_of sip sc events k.
Proof.
  unfold expected_result. intros Hx. apply in_map_iff in Hx.
  destruct Hx as [kx [<- Hin]]. apply sort_desc_In in Hin.
  apply in_map_iff in Hin. destruct Hin as [k [<- Hk]]. eauto.
Qed.

(** Every returned pair runs from the last in-progress event of its
    resource to its last complete event. *)
Lemma find_resources_pairs (operation sip sc : string) (events : list Event)
    (sorted_resources : resource_times_t) :
  select_statuses operation = Ok (sip, sc) ->
  find_resources_with_longest_time events operation = Ok sorted_resources ->
  Forall (fun x => exists k s e,
            x = timed_record k s e /\
            last_timestamp sip k events = PyDatetime s /\
            last_timestamp sc k events = PyDatetime e)
    sorted_resources.
Proof.
  intros Hsel Hfind.
  rewrite (find_resources_spec operation sip sc events Hsel) in Hfind.
  destruct (starts_have_records sip sc [] events && all_timed sip sc events) eqn:Hc;
    [|discriminate].
  inversion Hfind; subst sorted_resources; clear Hfind.
  apply andb_true_iff in Hc. destruct Hc as [_ Hall].
  unfold all_timed in Hall. rewrite forallb_forall in Hall.
  apply Forall_forall. intros x Hx.
  apply expected_result_In in Hx. destruct Hx as [k [Hk ->]].
  specialize (Hall k Hk). apply andb_true_iff in Hall. destruct Hall as [Hs He].
  exists k, (seconds (last_timestamp sip k events)),
    (seconds (last_timestamp sc k events)).
  split; [reflexivity|]. split; now apply is_datetime_seconds.
Qed.

Lemma insert_desc_perm {A : Type} (x : Z * A) (l : list (Z * A)) :
  Permutation (insert_desc x l) (x :: l).
Proof.
  induction l as [|y l IH]; simpl; [reflexivity|].
  destruct (fst x <? fst y); [|reflexivity].
  rewrite IH. apply perm_swap.
Qed.

Lemma sort_desc_perm {A : Type} (l : list (Z * A)) :
  Permutation (sort_desc l) l.
Proof.
  induction l as [|x l IH]; simpl; [reflexivity|].
  rewrite insert_desc_perm. now constructor.
Qed.

(** The sort keeps the input order among equal keys. *)
Lemma insert_desc_filter {A : Type} (d : Z) (x : Z * A) (l : list (Z * A)) :
  filter (fun y => fst y =? d) (insert_desc x l)
  = filter (fun y => fst y =? d) (x :: l).
Proof.
  induction l as [|y l IH]; [reflexivity|].
  cbn [insert_desc]. destruct (fst x <? fst y) eqn:E; [|reflexivity].
  cbn [filter] in *. rewrite IH.
  destruct (fst x =? d) eqn:Ex; [|reflexivity].
  apply Z.eqb_eq in Ex. apply Z.ltb_lt in E.
  assert (Hy : (fst y =? d) = false) by (apply Z.eqb_neq; lia).
  now rewrite Hy.
Qed.

Lemma sort_desc_filter {A : Type} (d : Z) (l : list (Z * A)) :
  filter (fun y => fst y =? d) (sort_desc l) = filter (fun y => fst y =? d) l.
Proof.
  induction l as [|x l IH]; [reflexivity|].
  cbn [sort_desc]. rewrite insert_desc_filter. cbn [filter]. now rewrite IH.
Qed.

Lemma expected_result_perm (sip sc : string) (events : list Event) :
  Permutation (expected_result sip sc events)
    (map (timed_of sip sc events) (encounter_order sc events)).
Proof.
  unfold expected_result. rewrite sort_desc_perm, map_map. reflexivity.
Qed.

Lemma expected_result_stable (sip sc : string) (events : list Event) (d : Z) :
  filter (fun x => duration_seconds x =? d) (expected_result sip sc events)
  = filter (fun x => duration_seconds x =? d)
      (map (timed_of sip sc events) (encounter_order sc events)).
Proof.
  unfold expected_result.
  set (keyed := map (fun k => (duration_seconds (timed_of sip sc events k),
                               timed_of sip sc events k))
                  (encounter_order sc events)).
  assert (Hkey : forall kx, In kx keyed -> fst kx = duration_seconds (snd kx)).
  { intros kx Hin. apply in_map_iff in Hin. destruct Hin as [k [<- _]].
    reflexivity. }
  rewrite filter_map_swap.
  rewrite (filter_ext_in (fun kx => duration_seconds (snd kx) =? d)
             (fun kx => fst kx =? d)).
  - rewrite sort_desc_filter.
    rewrite (filter_ext_in (fun kx => fst kx =? d)
               (fun kx => duration_seconds (snd kx) =? d)).
    + rewrite <- (filter_map_swap (fun x => duration_seconds x =? d) snd keyed).
      unfold keyed. now rewrite map_map.
    + intros kx Hin. now rewrite (Hkey kx Hin).
  - intros kx Hin. apply sort_desc_In in Hin. now rewrite (Hkey kx Hin).
Qed.

(** ** The report *)

Lemma report_lines_timed (l : resource_times_t) :
  Forall (fun x => exists k s e, x = timed_record k s e) l ->
  report_lines l = (map report_line l, Ok tt).
Proof.
  induction 1 as [|x l [k [s [e ->]]] Hl IH]; [reflexivity|].
  cbn [report_lines timed_record]. cbn. rewrite IH. reflexivity.
Qed.

Lemma select_statuses_guard (operation : string) (p : string * string) :
  select_statuses operation = Ok p ->
  existsb (String.eqb operation) ["create"; "delete"] = true.
Proof.
  unfold select_statuses. simpl.
  destruct (String.eqb operation "create"); [reflexivity|].
  destruct (String.eqb operation "delete"); [reflexivity|discriminate].
Qed.

Lemma guard_select_statuses (operation : string) :
  existsb (String.eqb operation) ["create"; "delete"] = true ->
  exists p, select_statuses operation = Ok p.
Proof.
  unfold select_statuses. simpl.
  destruct (String.eqb operation "create"); [eauto|].
  destruct (String.eqb operation "delete"); [eauto|discriminate].
Qed.

(** The report, as a function of the events. *)
Lemma analyze_events_spec (operation sip sc : string) (events : list Event) :
  select_statuses operation = Ok (sip, sc) ->
  analyze_events events operation
  = if starts_have_records sip sc [] events && all_timed sip sc events
    then (Line (String.append "Resources with longest "
                  (String.append operation " times:"))
            :: map report_line (expected_result sip sc events), Ok tt)
    else ([], Raise TypeError).
Proof.
  intros Hsel. unfold analyze_events.
  rewrite (select_statuses_guard _ _ Hsel). cbn [negb].
  pose proof (find_resources_pairs operation sip sc events) as Hpairs.
  rewrite (find_resources_spec operation sip sc events Hsel) in *.
  destruct (starts_have_records sip sc [] events && all_timed sip sc events);
    [|reflexivity].
  rewrite report_lines_timed; [reflexivity|].
  eapply Forall_impl; [|apply (Hpairs _ Hsel eq_refl)].
  intros x [k [s [e [-> _]]]]. eauto.
Qed.

(** Events of other statuses leave the mapping as it is. *)
Lemma process_events_filter_relevant (operation sip sc : string)
    (events : list Event) :
  select_statuses operation = Ok (sip, sc) ->
  forall rt,
    process_events operation (filter (relevant sip sc) events) rt
    = process_events operation events rt.
Proof.
  intros Hsel. induction events as [|e events IH]; intros rt; [reflexivity|].
  cbn [filter]. unfold relevant at 1.
  destruct (status_is e sip || status_is e sc) eqn:Hrel.
  - cbn [process_events]. destruct (find_step operation rt e); simpl; auto.
  - apply orb_false_iff in Hrel. destruct Hrel as [Hip Hc].
    cbn [process_events]. unfold find_step. rewrite Hsel. simpl.
    rewrite Hip, Hc. simpl. apply IH.
Qed.

(** ** Statements *)

(** X6: with a valid operation the loop over the events completes exactly
    when every in-progress event comes after a complete event of its
    resource, and raises [TypeError] otherwise.  When it completes, the
    mapping has one record per resource with a complete event, in the order
    of their first complete events; [start_time] is the timestamp of the
    last in-progress event of the resource ([None] without one) and
    [end_time] that of its last complete event. *)
Theorem X6_loop_records_last_timestamps (operation sip sc : string)
    (events : list Event) :
  select_statuses operation = Ok (sip, sc) ->
  process_events operation events []
  = if starts_have_records sip sc [] events
    then Ok (map (record_of sip sc events) (encounter_order sc events))
    else Raise TypeError.
Proof. apply process_events_spec. Qed.

Lemma X6_loop_records_last_timestamps_witness :
  process_events "delete"
    [mkEvent (Some "R1") (Some "DELETE_COMPLETE") (Some 40);
     mkEvent (Some "R1") (Some "DELETE_IN_PROGRESS") (Some 10);
     mkEvent (Some "R2") (Some "DELETE_COMPLETE") (Some 30);
     mkEvent (Some "R1") (Some "DELETE_IN_PROGRESS") (Some 15);
     mkEvent (Some "R1") (Some "DELETE_COMPLETE") (Some 20)] []
  = Ok [(Some "R1", [("start_time", PyDatetime 15); ("end_time", PyDatetime 20)]);
        (Some "R2", [("start_time", PyNone); ("end_time", PyDatetime 30)])].
Proof.
  exact (X6_loop_records_last_timestamps "delete" "DELETE_IN_PROGRESS"
           "DELETE_COMPLETE"
           [mkEvent (Some "R1") (Some "DELETE_COMPLETE") (Some 40);
            mkEvent (Some "R1") (Some "DELETE_IN_PROGRESS") (Some 10);
            mkEvent (Some "R2") (Some "DELETE_COMPLETE") (Some 30);
            mkEvent (Some "R1") (Some "DELETE_IN_PROGRESS") (Some 15);
            mkEvent (Some "R1") (Some "DELETE_COMPLETE") (Some 20)]
           eq_refl).
Defined.

(** X7: with a valid operation [find_resources_with_longest_time] returns
    exactly when the loop completes and every resource with a complete event
    has a last in-progress and a last complete event with a timestamp; it
    then returns the records of those resources, each with its duration,
    sorted; in every other case it raises [TypeError]. *)
Theorem X7_find_resources_as_function_of_events (operation sip sc : string)
    (events : list Event) :
  select_statuses operation = Ok (sip, sc) ->
  find_resources_with_longest_time events operation
  = if starts_have_records sip sc [] events && all_timed sip sc events
    then Ok (expected_result sip sc events)
    else Raise TypeError.
Proof. apply find_resources_spec. Qed.

Lemma X7_find_resources_as_function_of_events_witness :
  find_resources_with_longest_time
    [mkEvent (Some "R1") (Some "CREATE_COMPLETE") (Some 40);
     mkEvent (Some "R2") (Some "CREATE_COMPLETE") (Some 30);
     mkEvent (Some "R2") (Some "CREATE_IN_PROGRESS") (Some 12);
     mkEvent (Some "R1") (Some "CREATE_IN_PROGRESS") (Some 35)] "create"
  = Ok [(Some "R2", [("start_time", PyDatetime 12); ("end_time", PyDatetime 30);
                     ("duration", PyFloat 18)]);
        (Some "R1", [("start_time", PyDatetime 35); ("end_time", PyDatetime 40);
                     ("duration", PyFloat 5)])].
Proof.
  exact (X7_find_resources_as_function_of_events "create" "CREATE_IN_PROGRESS"
           "CREATE_COMPLETE"
           [mkEvent (Some "R1") (Some "CREATE_COMPLETE") (Some 40);
            mkEvent (Some "R2") (Some "CREATE_COMPLETE") (Some 30);
            mkEvent (Some "R2") (Some "CREATE_IN_PROGRESS") (Some 12);
            mkEvent (Some "R1") (Some "CREATE_IN_PROGRESS") (Some 35)]
           eq_refl).
Defined.

(** X8: every pair the function returns holds, for its resource, the
    timestamp of the last in-progress event as [start_time], the timestamp of
    the last complete event as [end_time], and their signed difference as
    [duration]. *)
Theorem X8_returned_pairs_span_last_events (operation sip sc : string)
    (events : list Event) (sorted_resources : resource_times_t) :
  select_statuses operation = Ok (sip, sc) ->
  find_resources_with_longest_time events operation = Ok sorted_resources ->
  Forall (fun x => exists k s e,
            x = timed_record k s e /\
            last_timestamp sip k events = PyDatetime s /\
            last_timestamp sc k events = PyDatetime e)
    sorted_resources.
Proof. apply find_resources_pairs. Qed.

Lemma X8_returned_pairs_span_last_events_witness :
  Forall (fun x => exists k s e,
            x = timed_record k s e /\
            last_timestamp "CREATE_IN_PROGRESS" k
              [mkEvent (Some "R1") (Some "CREATE_COMPLETE") (Some 40);
               mkEvent (Some "R1") (Some "CREATE_IN_PROGRESS") (Some 50)]
            = PyDatetime s /\
            last_timestamp "CREATE_COMPLETE" k
              [mkEvent (Some "R1") (Some "CREATE_COMPLETE") (Some 40);
               mkEvent (Some "R1") (Some "CREATE_IN_PROGRESS") (Some 50)]
            = PyDatetime e)
    [(Some "R1", [("start_time", PyDatetime 50); ("end_time", PyDatetime 40);
                  ("duration", PyFloat (-10))])].
Proof.
  apply (X8_returned_pairs_span_last_events "create" "CREATE_IN_PROGRESS"
           "CREATE_COMPLETE"
           [mkEvent (Some "R1") (Some "CREATE_COMPLETE") (Some 40);
            mkEvent (Some "R1") (Some "CREATE_IN_PROGRESS") (Some 50)]);
    reflexivity.
Defined.

Lemma timed_of_key (sip sc : string) (events : list Event)
    (ks : list (option string)) :
  map fst (map (timed_of sip sc events) ks) = ks.
Proof. rewrite map_map. simpl. apply map_id. Qed.

(** X9: the function returns one pair per resource that has a complete
    event of the operation, each resource once, and no other pair. *)
Theorem X9_one_pair_per_completed_resource (operation sip sc : string)
    (events : list Event) (sorted_resources : resource_times_t) :
  select_statuses operation = Ok (sip, sc) ->
  find_resources_with_longest_time events operation = Ok sorted_resources ->
  NoDup (map fst sorted_resources) /\
  forall resource_id,
    In resource_id (map fst sorted_resources) <->
    exists e, In e events /\ ResourceStatus e = Some sc
              /\ LogicalResourceId e = resource_id.
Proof.
  intros Hsel Hfind.
  rewrite (find_resources_spec operation sip sc events Hsel) in Hfind.
  destruct (starts_have_records sip sc [] events && all_timed sip sc events);
    [|discriminate].
  inversion Hfind; subst sorted_resources; clear Hfind.
  assert (Hperm : Permutation (map fst (expected_result sip sc events))
                    (encounter_order sc events)).
  { rewrite (expected_result_perm sip sc events). now rewrite timed_of_key. }
  split.
  - apply (Permutation_NoDup (Permutation_sym Hperm)), encounter_order_NoDup.
  - intros resource_id. rewrite <- encounter_order_In.
    split; apply Permutation_in; [exact Hperm|now apply Permutation_sym].
Qed.

Lemma X9_one_pair_per_completed_resource_witness :
  NoDup (map fst
           [(Some "R1", [("start_time", PyDatetime 35); ("end_time", PyDatetime 40);
                         ("duration", PyFloat 5)])]) /\
  forall resource_id,
    In resource_id
      (map fst
         [(Some "R1", [("start_time", PyDatetime 35); ("end_time", PyDatetime 40);
                       ("duration", PyFloat 5)])]) <->
    exists e,
      In e [mkEvent (Some "R1") (Some "CREATE_COMPLETE") (Some 60);
            mkEvent (Some "R1") (Some "CREATE_COMPLETE") (Some 40);
            mkEvent (Some "R1") (Some "CREATE_IN_PROGRESS") (Some 35);
            mkEvent (Some "R9") (Some "DELETE_COMPLETE") (Some 2)]
      /\ ResourceStatus e = Some "CREATE_COMPLETE"
      /\ LogicalResourceId e = resource_id.
Proof.
  apply (X9_one_pair_per_completed_resource "create" "CREATE_IN_PROGRESS"
           "CREATE_COMPLETE"
           [mkEvent (Some "R1") (Some "CREATE_COMPLETE") (Some 60);
            mkEvent (Some "R1") (Some "CREATE_COMPLETE") (Some 40);
            mkEvent (Some "R1") (Some "CREATE_IN_PROGRESS") (Some 35);
            mkEvent (Some "R9") (Some "DELETE_COMPLETE") (Some 2)]);
    reflexivity.
Defined.

(** X10: pairs with the same duration are returned in the order in which
    their resources first had a complete event: the descending sort is
    stable. *)
Theorem X10_equal_durations_keep_encounter_order (operation sip sc : string)
    (events : list Event) (sorted_resources : resource_times_t) (d : Z) :
  select_statuses operation = Ok (sip, sc) ->
  find_resources_with_longest_time events operation = Ok sorted_resources ->
  filter (fun x => duration_seconds x =? d) sorted_resources
  = filter (fun x => duration_seconds x =? d)
      (map (timed_of sip sc events) (encounter_order sc events)).
Proof.
  intros Hsel Hfind.
  rewrite (find_resources_spec operation sip sc events Hsel) in Hfind.
  destruct (starts_have_records sip sc [] events && all_timed sip sc events);
    [|discriminate].
  inversion Hfind; subst sorted_resources.
  apply expected_result_stable.
Qed.

Lemma X10_equal_durations_keep_encounter_order_witness :
  filter (fun x => duration_seconds x =? 5)
    [(Some "R3", [("start_time", PyDatetime 1); ("end_time", PyDatetime 10);
                  ("duration", PyFloat 9)]);
     (Some "R2", [("start_time", PyDatetime 2); ("end_time", PyDatetime 7);
                  ("duration", PyFloat 5)]);
     (Some "R1", [("start_time", PyDatetime 3); ("end_time", PyDatetime 8);
                  ("duration", PyFloat 5)])]
  = [(Some "R2", [("start_time", PyDatetime 2); ("end_time", PyDatetime 7);
                  ("duration", PyFloat 5)]);
     (Some "R1", [("start_time", PyDatetime 3); ("end_time", PyDatetime 8);
                  ("duration", PyFloat 5)])].
Proof.
  exact (X10_equal_durations_keep_encounter_order "create" "CREATE_IN_PROGRESS"
           "CREATE_COMPLETE"
           [mkEvent (Some "R2") (Some "CREATE_COMPLETE") (Some 7);
            mkEvent (Some "R1") (Some "CREATE_COMPLETE") (Some 8);
            mkEvent (Some "R3") (Some "CREATE_COMPLETE") (Some 10);
            mkEvent (Some "R1") (Some "CREATE_IN_PROGRESS") (Some 3);
            mkEvent (Some "R2") (Some "CREATE_IN_PROGRESS") (Some 2);
            mkEvent (Some "R3") (Some "CREATE_IN_PROGRESS") (Some 1)]
           _ 5 eq_refl eq_refl).
Defined.

(** X11: events whose status is neither of the two statuses of the
    operation have no effect: dropping them from the input changes neither
    the result nor the exception. *)
Theorem X11_other_events_are_ignored (operation sip sc : string)
    (events : list Event) :
  select_statuses operation = Ok (sip, sc) ->
  find_resources_with_longest_time (filter (relevant sip sc) events) operation
  = find_resources_with_longest_time events operation.
Proof.
  intros Hsel. unfold find_resources_with_longest_time.
  now rewrite (process_events_filter_relevant operation sip sc events Hsel).
Qed.

Lemma X11_other_events_are_ignored_witness :
  find_resources_with_longest_time
    (filter (relevant "CREATE_IN_PROGRESS" "CREATE_COMPLETE")
       [mkEvent (Some "R1") (Some "UPDATE_COMPLETE") (Some 90);
        mkEvent (Some "R1") (Some "CREATE_COMPLETE") (Some 40);
        mkEvent None None None;
        mkEvent (Some "R1") (Some "DELETE_IN_PROGRESS") (Some 70);
        mkEvent (Some "R1") (Some "CREATE_IN_PROGRESS") (Some 35)])
    "create"
  = find_resources_with_longest_time
      [mkEvent (Some "R1") (Some "UPDATE_COMPLETE") (Some 90);
       mkEvent (Some "R1") (Some "CREATE_COMPLETE") (Some 40);
       mkEvent None None None;
       mkEvent (Some "R1") (Some "DELETE_IN_PROGRESS") (Some 70);
       mkEvent (Some "R1") (Some "CREATE_IN_PROGRESS") (Some 35)]
      "create".
Proof.
  apply (X11_other_events_are_ignored "create" "CREATE_IN_PROGRESS"
           "CREATE_COMPLETE").
  reflexivity.
Defined.

(** X12: with a valid operation [analyze_events] prints the header line and
    then one line per returned pair, in the returned order, each with the
    resource and its duration, and returns normally; when the analysis
    raises it prints nothing and raises [TypeError]. *)
Theorem X12_report_lists_pairs_in_order (operation sip sc : string)
    (events : list Event) :
  select_statuses operation = Ok (sip, sc) ->
  analyze_events events operation
  = if starts_have_records sip sc [] events && all_timed sip sc events
    then (Line (String.append "Resources with longest "
                  (String.append operation " times:"))
            :: map report_line (expected_result sip sc events), Ok tt)
    else ([], Raise TypeError).
Proof. apply analyze_events_spec. Qed.

Lemma X12_report_lists_pairs_in_order_witness :
  analyze_events
    [mkEvent (Some "R1") (Some "CREATE_COMPLETE") (Some 40);
     mkEvent (Some "R2") (Some "CREATE_COMPLETE") (Some 30);
     mkEvent (Some "R2") (Some "CREATE_IN_PROGRESS") (Some 12);
     mkEvent (Some "R1") (Some "CREATE_IN_PROGRESS") (Some 35)] "create"
  = ([Line "Resources with longest create times:";
      ResourceLine (Some "R2") (PyFloat 18);
      ResourceLine (Some "R1") (PyFloat 5)], Ok tt).
Proof.
  exact (X12_report_lists_pairs_in_order "create" "CREATE_IN_PROGRESS"
           "CREATE_COMPLETE"
           [mkEvent (Some "R1") (Some "CREATE_COMPLETE") (Some 40);
            mkEvent (Some "R2") (Some "CREATE_COMPLETE") (Some 30);
            mkEvent (Some "R2") (Some "CREATE_IN_PROGRESS") (Some 12);
            mkEvent (Some "R1") (Some "CREATE_IN_PROGRESS") (Some 35)]
           eq_refl).
Defined.

(** X13: whatever the events and the operation string, [analyze_events]
    either returns normally or raises [TypeError] having printed nothing;
    the [ValueError] of the analysis never reaches its caller. *)
Theorem X13_analyze_events_raises_only_TypeError (events : list Event)
    (operation : string) :
  snd (analyze_events events operation) = Ok tt \/
  analyze_events events operation = ([], Raise TypeError).
Proof.
  destruct (existsb (String.eqb operation) ["create"; "delete"]) eqn:Hg.
  - destruct (guard_select_statuses operation Hg) as [[sip sc] Hsel].
    rewrite (analyze_events_spec operation sip sc events Hsel).
    destruct (starts_have_records sip sc [] events && all_timed sip sc events);
      auto.
  - left. unfold analyze_events. now rewrite Hg.
Qed.
